(** * The CodeCommit repository resource (aws/resource_aws_codecommit_repository.go)

    A shallow embedding of the four lifecycle handlers of the
    [aws_codecommit_repository] resource: Create, Update, Read and Delete,
    with the two helpers [resourceAwsCodeCommitUpdateDescription] and
    [resourceAwsCodeCommitUpdateDefaultBranch].

    The handlers are Go procedures over two pieces of mutable state: the
    resource data [d] handed in by the plugin framework, and the remote
    service behind [conn].  They are embedded as computations in a state
    monad whose state carries the resource data, the state of the remote
    service and the log of the remote calls made so far. *)

From Stdlib Require Import String Ascii List Bool Arith Lia.
From stdpp Require Import base option gmap strings list fin_maps.

Local Open Scope string_scope.

(* ===================================================================== *)
(** ** Go errors *)
(* ===================================================================== *)

(** A Go [error] value.  [AwsErr] is an SDK error ([awserr.Error]) with its
    code and message; [PlainErr] is any other error, in particular the ones
    built by [fmt.Errorf].  A nil error is [None : option error]. *)
Inductive error : Type :=
| AwsErr (code message : string)
| PlainErr (msg : string).

(** [err.Error()]: an SDK error prints as "code: message". *)
Definition Error (e : error) : string :=
  match e with
  | AwsErr code message => code ++ ": " ++ message
  | PlainErr msg => msg
  end.

(** [fmt.Errorf(prefix + "%s", s)]. *)
Definition Errorf (prefix s : string) : error := PlainErr (prefix ++ s).

(** [strings.HasPrefix s p]. *)
Fixpoint HasPrefix (s p : string) : bool :=
  match p with
  | EmptyString => true
  | String c p' =>
      match s with
      | EmptyString => false
      | String c' s' => if Ascii.eqb c c' then HasPrefix s' p' else false
      end
  end.

(** [strings.Contains s sub]. *)
Fixpoint Contains (s sub : string) : bool :=
  HasPrefix s sub ||
  match s with
  | EmptyString => false
  | String _ s' => Contains s' sub
  end.

(** Modelled from the spec: [isAWSErr] is a helper of this provider declared
    outside this file.  The spec speaks of a failure "with the 'repository
    does not exist' error code": the error is an SDK error, its code is the
    given one and its message contains the given text. *)
Definition isAWSErr (err : error) (code message : string) : bool :=
  match err with
  | AwsErr c m => String.eqb c code && Contains m message
  | PlainErr _ => false
  end.

(** [codecommit.ErrCodeRepositoryDoesNotExistException]. *)
Definition ErrCodeRepositoryDoesNotExistException : string :=
  "RepositoryDoesNotExistException".

(* ===================================================================== *)
(** ** Attribute values and the schema *)
(* ===================================================================== *)

(** The values the handlers pass to [d.Set] and obtain from [d.Get]: a
    string behind a pointer ([*string], nil is [None]) or a map of tags. *)
Inductive Value : Type :=
| VString (s : option string)
| VMap (m : gmap string string).

Inductive ValueType : Type := TypeString | TypeMap.

Definition ValueType_eqb (a b : ValueType) : bool :=
  match a, b with
  | TypeString, TypeString | TypeMap, TypeMap => true
  | _, _ => false
  end.

Definition typeOf (v : Value) : ValueType :=
  match v with VString _ => TypeString | VMap _ => TypeMap end.

(** The zero value of a schema type, returned by [d.Get] for an attribute
    that holds nothing. *)
Definition zeroValue (t : ValueType) : Value :=
  match t with TypeString => VString (Some "") | TypeMap => VMap ∅ end.

(** The type assertions [.(string)] and [.(map[string]interface{})] on the
    result of [d.Get]; a nil string reads as the empty string. *)
Definition asString (v : Value) : string :=
  match v with VString (Some s) => s | _ => "" end.

Definition asMap (v : Value) : gmap string string :=
  match v with VMap m => m | _ => ∅ end.

(** [reflect.DeepEqual(v, zero)] as used by [d.GetOk]. *)
Definition isZero (v : Value) : bool :=
  match v with
  | VString None => true
  | VString (Some s) => String.eqb s ""
  | VMap m => bool_decide (m = ∅)
  end.

(** A [schema.SchemaValidateFunc]: the warnings and the errors. *)
Definition SchemaValidateFunc : Type := Value -> string -> list string * list error.

(** [validation.StringLenBetween(min, max)]: the value must be a string
    whose length [len(v)] lies between [min] and [max], bounds included. *)
Definition StringLenBetween (min max : nat) : SchemaValidateFunc :=
  fun i k =>
    match i with
    | VString (Some v) =>
        if (String.length v <? min)%nat || (max <? String.length v)%nat
        then ([], [PlainErr ("expected length of " ++ k ++ " to be in the allowed range, got " ++ v)])
        else ([], [])
    | _ => ([], [PlainErr ("expected type of " ++ k ++ " to be string")])
    end.

(** A validation accepts a value when it reports no error. *)
Definition accepts (f : SchemaValidateFunc) (i : Value) (k : string) : bool :=
  match snd (f i k) with [] => true | _ :: _ => false end.

(** [schema.Schema], with the fields this resource uses. *)
Record Schema : Type := mkSchema {
  Type_ : ValueType;
  Required : bool;
  Optional : bool;
  Computed : bool;
  ForceNew : bool;
  ValidateFunc : option SchemaValidateFunc;
}.

(** Modelled from the spec: [tagsSchema] is declared outside this file; the
    spec describes the attribute as "a set of key/value tags" that is plain
    configuration, so it is an optional map. *)
Definition tagsSchema : Schema :=
  {| Type_ := TypeMap; Required := false; Optional := true;
     Computed := false; ForceNew := false; ValidateFunc := None |}.

(** The [Schema] table of [resourceAwsCodeCommitRepository], as an
    association list in the order of the source. *)
Definition resourceSchemaEntries : list (string * Schema) :=
  [ ("repository_name",
      {| Type_ := TypeString; Required := true; Optional := false;
         Computed := false; ForceNew := true;
         ValidateFunc := Some (StringLenBetween 0 100) |});
    ("description",
      {| Type_ := TypeString; Required := false; Optional := true;
         Computed := false; ForceNew := false;
         ValidateFunc := Some (StringLenBetween 0 1000) |});
    ("arn",
      {| Type_ := TypeString; Required := false; Optional := false;
         Computed := true; ForceNew := false; ValidateFunc := None |});
    ("repository_id",
      {| Type_ := TypeString; Required := false; Optional := false;
         Computed := true; ForceNew := false; ValidateFunc := None |});
    ("clone_url_http",
      {| Type_ := TypeString; Required := false; Optional := false;
         Computed := true; ForceNew := false; ValidateFunc := None |});
    ("clone_url_ssh",
      {| Type_ := TypeString; Required := false; Optional := false;
         Computed := true; ForceNew := false; ValidateFunc := None |});
    ("default_branch",
      {| Type_ := TypeString; Required := false; Optional := true;
         Computed := false; ForceNew := false; ValidateFunc := None |});
    ("tags", tagsSchema) ].

(** The table as the Go map it is. *)
Definition resourceSchema : gmap string Schema := list_to_map resourceSchemaEntries.

(* ===================================================================== *)
(** ** The resource data *)
(* ===================================================================== *)

(** [schema.ResourceData] as the handlers see it through the accessor
    contract of the framework:
    - [Id]: the resource identity ([d.Id], [d.SetId]);
    - [attrs]: the merged view of the attributes that [d.Get] and
      [d.GetOk] read and [d.Set] writes;
    - [changed]: the attributes whose planned value differs from the prior
      state ([d.HasChange]); it is fixed for the invocation, [d.Set] does
      not alter it;
    - [isNew]: the mark the framework puts on the data before it calls
      Create ([d.IsNewResource]). *)
Record ResourceData : Type := mkResourceData {
  Id : string;
  attrs : gmap string Value;
  changed : gset string;
  isNew : bool;
}.

Definition withId (id : string) (d : ResourceData) : ResourceData :=
  {| Id := id; attrs := attrs d; changed := changed d; isNew := isNew d |}.

Definition withAttr (k : string) (v : Value) (d : ResourceData) : ResourceData :=
  {| Id := Id d; attrs := <[k := v]> (attrs d); changed := changed d; isNew := isNew d |}.

(** [d.Get(k)]: the value held, or the zero value of the schema type. *)
Definition Get (k : string) (d : ResourceData) : Value :=
  match attrs d !! k with
  | Some v => v
  | None =>
      match resourceSchema !! k with
      | Some s => zeroValue (Type_ s)
      | None => VString None
      end
  end.

(** [d.GetOk(k)]: the value and whether it is set to a non-zero value. *)
Definition GetOk (k : string) (d : ResourceData) : Value * bool :=
  match attrs d !! k with
  | Some v => (v, negb (isZero v))
  | None => (Get k d, false)
  end.

Definition HasChange (k : string) (d : ResourceData) : bool :=
  bool_decide (k ∈ changed d).

Definition IsNewResource (d : ResourceData) : bool := isNew d.

(** [d.Set(k, v)]: refused with an error when [k] is not an attribute of
    the schema or [v] has not its type; otherwise the value is stored. *)
Definition Set_ (k : string) (v : Value) (d : ResourceData) : option error * ResourceData :=
  match resourceSchema !! k with
  | None => (Some (PlainErr ("Invalid address to set: " ++ k)), d)
  | Some s =>
      if ValueType_eqb (Type_ s) (typeOf v)
      then (None, withAttr k v d)
      else (Some (PlainErr (k ++ ": value of the wrong type")), d)
  end.


(* ===================================================================== *)
(** ** The remote service *)
(* ===================================================================== *)

(** The result of a remote call: its output or the error. *)
Inductive result (A : Type) : Type :=
| Ok (out : A)
| Err (err : error).
Arguments Ok {A} out.
Arguments Err {A} err.

(** The request and response types of the [codecommit] package, each in a
    module of its name so that the fields keep theirs.  Pointer fields are
    options. *)
Module RepositoryMetadata.
Record t : Type := mk {
  Arn : option string;
  CloneUrlHttp : option string;
  CloneUrlSsh : option string;
  DefaultBranch : option string;
  RepositoryDescription : option string;
  RepositoryId : option string;
  RepositoryName : option string;
}.
End RepositoryMetadata.

Module CreateRepositoryInput.
Record t : Type := mk {
  RepositoryName : option string;
  RepositoryDescription : option string;
  Tags : gmap string (option string);
}.
End CreateRepositoryInput.

Module CreateRepositoryOutput.
Record t : Type := mk { RepositoryMetadata : RepositoryMetadata.t }.
End CreateRepositoryOutput.

Module GetRepositoryInput.
Record t : Type := mk { RepositoryName : option string }.
End GetRepositoryInput.

Module GetRepositoryOutput.
Record t : Type := mk { RepositoryMetadata : RepositoryMetadata.t }.
End GetRepositoryOutput.

Module DeleteRepositoryInput.
Record t : Type := mk { RepositoryName : option string }.
End DeleteRepositoryInput.

Module DeleteRepositoryOutput.
Record t : Type := mk { RepositoryId : option string }.
End DeleteRepositoryOutput.

Module UpdateRepositoryDescriptionInput.
Record t : Type := mk {
  RepositoryName : option string;
  RepositoryDescription : option string;
}.
End UpdateRepositoryDescriptionInput.

Module UpdateDefaultBranchInput.
Record t : Type := mk {
  RepositoryName : option string;
  DefaultBranchName : option string;
}.
End UpdateDefaultBranchInput.

Module ListBranchesInput.
Record t : Type := mk { RepositoryName : option string }.
End ListBranchesInput.

Module ListBranchesOutput.
Record t : Type := mk { Branches : list (option string) }.
End ListBranchesOutput.

Module ListTagsForResourceInput.
Record t : Type := mk { ResourceArn : option string }.
End ListTagsForResourceInput.

Module ListTagsForResourceOutput.
Record t : Type := mk { Tags : gmap string (option string) }.
End ListTagsForResourceOutput.

(** The client [*codecommit.CodeCommit]: the operations this file consumes,
    each a transition of the state [W] of the remote service.  Nothing is
    assumed about what the service answers. *)
Record CodeCommit (W : Type) : Type := mkCodeCommit {
  CreateRepository : CreateRepositoryInput.t -> W -> result CreateRepositoryOutput.t * W;
  GetRepository : GetRepositoryInput.t -> W -> result GetRepositoryOutput.t * W;
  DeleteRepository : DeleteRepositoryInput.t -> W -> result DeleteRepositoryOutput.t * W;
  UpdateRepositoryDescription : UpdateRepositoryDescriptionInput.t -> W -> result unit * W;
  UpdateDefaultBranch : UpdateDefaultBranchInput.t -> W -> result unit * W;
  ListBranches : ListBranchesInput.t -> W -> result ListBranchesOutput.t * W;
  ListTagsForResource : ListTagsForResourceInput.t -> W -> result ListTagsForResourceOutput.t * W;
}.
Arguments CreateRepository {W} _ _ _.
Arguments GetRepository {W} _ _ _.
Arguments DeleteRepository {W} _ _ _.
Arguments UpdateRepositoryDescription {W} _ _ _.
Arguments UpdateDefaultBranch {W} _ _ _.
Arguments ListBranches {W} _ _ _.
Arguments ListTagsForResource {W} _ _ _.

(** A remote call with its request.  [CallSetTags] is the call of the
    tag-reconciliation helper [setTagsCodeCommit] on the resource data. *)
Inductive Call : Type :=
| CallCreateRepository (input : CreateRepositoryInput.t)
| CallGetRepository (input : GetRepositoryInput.t)
| CallDeleteRepository (input : DeleteRepositoryInput.t)
| CallUpdateRepositoryDescription (input : UpdateRepositoryDescriptionInput.t)
| CallUpdateDefaultBranch (input : UpdateDefaultBranchInput.t)
| CallListBranches (input : ListBranchesInput.t)
| CallListTagsForResource (input : ListTagsForResourceInput.t)
| CallSetTags (d : ResourceData).

(** An entry of the log: the call and the error it failed with, if any. *)
Definition Event : Type := Call * option error.

(* ===================================================================== *)
(** ** The handler monad *)
(* ===================================================================== *)

(** What a handler runs on: the resource data [d], the remote service and
    the log of the remote calls made, oldest first. *)
Record St (W : Type) : Type := mkSt {
  data : ResourceData;
  remote : W;
  calls : list Event;
}.
Arguments mkSt {W} _ _ _.
Arguments data {W} _.
Arguments remote {W} _.
Arguments calls {W} _.

Definition M (W A : Type) : Type := St W -> A * St W.

Definition ret {W A} (a : A) : M W A := fun st => (a, st).

Definition bind {W A B} (m : M W A) (k : A -> M W B) : M W B :=
  fun st => let (a, st') := m st in k a st'.

Notation "x <- c1 ;; c2" := (bind c1 (fun x => c2))
  (at level 100, c1 at next level, right associativity).
Notation "c1 ;;; c2" := (bind c1 (fun _ => c2))
  (at level 100, right associativity).

(** Reading [d]. *)
Definition getData {W} : M W ResourceData := fun st => (data st, st).

(** [d.SetId(id)]. *)
Definition SetId {W} (id : string) : M W unit :=
  fun st => (tt, mkSt (withId id (data st)) (remote st) (calls st)).

(** [d.Set(k, v)], with the error it returns. *)
Definition dSet {W} (k : string) (v : Value) : M W (option error) :=
  fun st => let (e, d') := Set_ k v (data st) in
            (e, mkSt d' (remote st) (calls st)).

Definition errorOf {A} (r : result A) : option error :=
  match r with Ok _ => None | Err e => Some e end.

(** A call of an operation of the client: the service moves on and the call
    is logged with its outcome. *)
Definition invoke {W I O} (op : I -> W -> result O * W) (c : I -> Call) (input : I)
  : M W (result O) :=
  fun st => let (r, w') := op input (remote st) in
            (r, mkSt (data st) w' (calls st ++ [(c input, errorOf r)])).

(* ===================================================================== *)
(** ** The handlers *)
(* ===================================================================== *)

Section Handlers.

Context {W : Type}.

(** The client [codecommitconn] held by [meta]. *)
Variable conn : CodeCommit W.

(** The helpers of the provider that this file calls and that are declared
    outside it: the two tag-map conversions, and the tag-reconciliation
    helper, which reads the resource data, talks to the service and returns
    an error or nil. *)
Variable tagsFromMapCodeCommit : gmap string string -> gmap string (option string).
Variable tagsToMapCodeCommit : gmap string (option string) -> gmap string string.
Variable setTagsCodeCommit : CodeCommit W -> ResourceData -> W -> option error * W.

(** The call [setTagsCodeCommit(conn, d)], logged as one remote call. *)
Definition callSetTags : M W (option error) :=
  fun st => let (e, w') := setTagsCodeCommit conn (data st) (remote st) in
            (e, mkSt (data st) w' (calls st ++ [(CallSetTags (data st), e)])).

Definition resourceAwsCodeCommitUpdateDescription : M W (option error) :=
  d <- getData ;;
  let branchInput :=
    {| UpdateRepositoryDescriptionInput.RepositoryName := Some (Id d);
       UpdateRepositoryDescriptionInput.RepositoryDescription :=
         Some (asString (Get "description" d)) |} in
  r <- invoke (UpdateRepositoryDescription conn) CallUpdateRepositoryDescription branchInput ;;
  match r with
  | Err err =>
      ret (Some (Errorf "Error Updating Repository Description for CodeCommit Repository: "
                        (Error err)))
  | Ok _ => ret None
  end.

Definition resourceAwsCodeCommitUpdateDefaultBranch : M W (option error) :=
  d <- getData ;;
  let input := {| ListBranchesInput.RepositoryName := Some (Id d) |} in
  r <- invoke (ListBranches conn) CallListBranches input ;;
  match r with
  | Err err =>
      ret (Some (Errorf "Error reading CodeCommit Repository branches: " (Error err)))
  | Ok out =>
      if (length (ListBranchesOutput.Branches out) =? 0)%nat
      then (* only a warning is printed *) ret None
      else
        let branchInput :=
          {| UpdateDefaultBranchInput.RepositoryName := Some (Id d);
             UpdateDefaultBranchInput.DefaultBranchName :=
               Some (asString (Get "default_branch" d)) |} in
        r' <- invoke (UpdateDefaultBranch conn) CallUpdateDefaultBranch branchInput ;;
        match r' with
        | Err err =>
            ret (Some (Errorf "Error Updating Default Branch for CodeCommit Repository: "
                              (Error err)))
        | Ok _ => ret None
        end
  end.

Definition resourceAwsCodeCommitRepositoryRead : M W (option error) :=
  d <- getData ;;
  let input := {| GetRepositoryInput.RepositoryName := Some (Id d) |} in
  r <- invoke (GetRepository conn) CallGetRepository input ;;
  match r with
  | Err err =>
      if isAWSErr err ErrCodeRepositoryDoesNotExistException ""
      then (* a warning is printed *) SetId "" ;;; ret None
      else ret (Some (Errorf "Error reading CodeCommit Repository: " (Error err)))
  | Ok out =>
      let md := GetRepositoryOutput.RepositoryMetadata out in
      dSet "repository_id" (VString (RepositoryMetadata.RepositoryId md)) ;;;
      dSet "arn" (VString (RepositoryMetadata.Arn md)) ;;;
      dSet "clone_url_http" (VString (RepositoryMetadata.CloneUrlHttp md)) ;;;
      dSet "clone_url_ssh" (VString (RepositoryMetadata.CloneUrlSsh md)) ;;;
      dSet "description" (VString (RepositoryMetadata.RepositoryDescription md)) ;;;
      dSet "repository_name" (VString (RepositoryMetadata.RepositoryName md)) ;;;
      d1 <- getData ;;
      (if snd (GetOk "default_branch" d1)
       then match RepositoryMetadata.DefaultBranch md with
            | Some b => dSet "default_branch" (VString (Some b)) ;;; ret tt
            | None => ret tt
            end
       else ret tt) ;;;
      (* List tags *)
      rt <- invoke (ListTagsForResource conn) CallListTagsForResource
              {| ListTagsForResourceInput.ResourceArn := RepositoryMetadata.Arn md |} ;;
      match rt with
      | Err err =>
          d2 <- getData ;;
          ret (Some (Errorf ("error listing CodeCommit Repository tags for " ++ Id d2 ++ ": ")
                            (Error err)))
      | Ok tagList =>
          e <- dSet "tags" (VMap (tagsToMapCodeCommit (ListTagsForResourceOutput.Tags tagList))) ;;
          match e with
          | Some err => ret (Some (Errorf "error setting tags: " (Error err)))
          | None => ret None
          end
      end
  end.

Definition resourceAwsCodeCommitRepositoryUpdate : M W (option error) :=
  d <- getData ;;
  e1 <- (if snd (GetOk "default_branch" d)
         then if HasChange "default_branch" d
              then resourceAwsCodeCommitUpdateDefaultBranch
              else ret None
         else ret None) ;;
  match e1 with
  | Some err => ret (Some err)
  | None =>
      e2 <- (if HasChange "description" d
             then resourceAwsCodeCommitUpdateDescription
             else ret None) ;;
      match e2 with
      | Some err => ret (Some err)
      | None =>
          e3 <- (if negb (IsNewResource d)
                 then
                   e <- callSetTags ;;
                   match e with
                   | Some err =>
                       ret (Some (Errorf ("error updating CodeCommit Repository tags for "
                                            ++ Id d ++ ": ") (Error err)))
                   | None => ret None
                   end
                 else ret None) ;;
          match e3 with
          | Some err => ret (Some err)
          | None => resourceAwsCodeCommitRepositoryRead
          end
      end
  end.

Definition resourceAwsCodeCommitRepositoryCreate : M W (option error) :=
  d <- getData ;;
  let input :=
    {| CreateRepositoryInput.RepositoryName := Some (asString (Get "repository_name" d));
       CreateRepositoryInput.RepositoryDescription := Some (asString (Get "description" d));
       CreateRepositoryInput.Tags := tagsFromMapCodeCommit (asMap (Get "tags" d)) |} in
  r <- invoke (CreateRepository conn) CallCreateRepository input ;;
  match r with
  | Err err => ret (Some (Errorf "Error creating CodeCommit Repository: " (Error err)))
  | Ok out =>
      let md := CreateRepositoryOutput.RepositoryMetadata out in
      SetId (asString (Get "repository_name" d)) ;;;
      dSet "repository_id" (VString (RepositoryMetadata.RepositoryId md)) ;;;
      dSet "arn" (VString (RepositoryMetadata.Arn md)) ;;;
      dSet "clone_url_http" (VString (RepositoryMetadata.CloneUrlHttp md)) ;;;
      dSet "clone_url_ssh" (VString (RepositoryMetadata.CloneUrlSsh md)) ;;;
      resourceAwsCodeCommitRepositoryUpdate
  end.

Definition resourceAwsCodeCommitRepositoryDelete : M W (option error) :=
  d <- getData ;;
  r <- invoke (DeleteRepository conn) CallDeleteRepository
         {| DeleteRepositoryInput.RepositoryName := Some (Id d) |} ;;
  match r with
  | Err err => ret (Some (Errorf "Error deleting CodeCommit Repository: " (Error err)))
  | Ok _ => ret None
  end.

End Handlers.

(* ===================================================================== *)
(** ** The anatomy of the handlers *)
(* ===================================================================== *)

(** Names for the requests the handlers build, for the resource data they
    leave behind and for the three guarded steps of Update.  The lemmas of
    the next part relate them to the handlers above. *)

(** Two steps in a row, the second skipped when the first returns an
    error: [if err := m1(); err != nil { return err }; return m2()]. *)
Definition andThen {W} (m1 m2 : M W (option error)) : M W (option error) :=
  e <- m1 ;; match e with Some err => ret (Some err) | None => m2 end.

(** The request Read sends. *)
Definition readInput (d : ResourceData) : GetRepositoryInput.t :=
  {| GetRepositoryInput.RepositoryName := Some (Id d) |}.

(** The request Delete sends. *)
Definition deleteInput (d : ResourceData) : DeleteRepositoryInput.t :=
  {| DeleteRepositoryInput.RepositoryName := Some (Id d) |}.

(** The requests of the default-branch step. *)
Definition listBranchesInput (d : ResourceData) : ListBranchesInput.t :=
  {| ListBranchesInput.RepositoryName := Some (Id d) |}.

Definition updateDefaultBranchInput (d : ResourceData) : UpdateDefaultBranchInput.t :=
  {| UpdateDefaultBranchInput.RepositoryName := Some (Id d);
     UpdateDefaultBranchInput.DefaultBranchName := Some (asString (Get "default_branch" d)) |}.

(** The resource data once Read has copied the six fields of the metadata. *)
Definition copied (md : RepositoryMetadata.t) (d : ResourceData) : ResourceData :=
  withAttr "repository_name" (VString (RepositoryMetadata.RepositoryName md))
    (withAttr "description" (VString (RepositoryMetadata.RepositoryDescription md))
       (withAttr "clone_url_ssh" (VString (RepositoryMetadata.CloneUrlSsh md))
          (withAttr "clone_url_http" (VString (RepositoryMetadata.CloneUrlHttp md))
             (withAttr "arn" (VString (RepositoryMetadata.Arn md))
                (withAttr "repository_id" (VString (RepositoryMetadata.RepositoryId md)) d))))).

(** ... and once it has looked at the default branch. *)
Definition branched (md : RepositoryMetadata.t) (d : ResourceData) : ResourceData :=
  if snd (GetOk "default_branch" d)
  then match RepositoryMetadata.DefaultBranch md with
       | Some b => withAttr "default_branch" (VString (Some b)) d
       | None => d
       end
  else d.

(** The resource data with which Create enters Update. *)
Definition created (md : RepositoryMetadata.t) (d : ResourceData) : ResourceData :=
  withAttr "clone_url_ssh" (VString (RepositoryMetadata.CloneUrlSsh md))
    (withAttr "clone_url_http" (VString (RepositoryMetadata.CloneUrlHttp md))
       (withAttr "arn" (VString (RepositoryMetadata.Arn md))
          (withAttr "repository_id" (VString (RepositoryMetadata.RepositoryId md))
             (withId (asString (Get "repository_name" d)) d)))).

Section Anatomy.

Context {W : Type}.
Variable conn : CodeCommit W.
Variable tagsFromMapCodeCommit : gmap string string -> gmap string (option string).
Variable setTagsCodeCommit : CodeCommit W -> ResourceData -> W -> option error * W.

(** The request Create sends. *)
Definition createInput (d : ResourceData) : CreateRepositoryInput.t :=
  {| CreateRepositoryInput.RepositoryName := Some (asString (Get "repository_name" d));
     CreateRepositoryInput.RepositoryDescription := Some (asString (Get "description" d));
     CreateRepositoryInput.Tags := tagsFromMapCodeCommit (asMap (Get "tags" d)) |}.

(** The guarded default-branch step of Update. *)
Definition defaultBranchStep (d : ResourceData) : M W (option error) :=
  if snd (GetOk "default_branch" d)
  then if HasChange "default_branch" d
       then resourceAwsCodeCommitUpdateDefaultBranch conn
       else ret None
  else ret None.

(** The guarded description step. *)
Definition descriptionStep (d : ResourceData) : M W (option error) :=
  if HasChange "description" d then resourceAwsCodeCommitUpdateDescription conn else ret None.

(** The guarded tags step. *)
Definition tagsStep (d : ResourceData) : M W (option error) :=
  if negb (IsNewResource d)
  then
    e <- callSetTags conn setTagsCodeCommit ;;
    match e with
    | Some err =>
        ret (Some (Errorf ("error updating CodeCommit Repository tags for " ++ Id d ++ ": ")
                          (Error err)))
    | None => ret None
    end
  else ret None.

(** Update up to the point where it hands over to Read: the first error of
    the three steps, or nil. *)
Definition updateSteps (d : ResourceData) : M W (option error) :=
  andThen (andThen (defaultBranchStep d) (descriptionStep d)) (tagsStep d).

End Anatomy.

(* ===================================================================== *)
(** ** The log of remote calls *)
(* ===================================================================== *)

(** The calls a computation adds to the log when run from [st]. *)
Definition newCalls {W A} (m : M W A) (st : St W) : list Event :=
  drop (length (calls st)) (calls (snd (m st))).

(** The computation only adds to the log. *)
Definition Extends {W A} (m : M W A) (st : St W) : Prop :=
  exists tr, calls (snd (m st)) = (calls st ++ tr)%list.

Definition succeeded (ev : Event) : Prop := snd ev = None.

(** The one failure that Read does not report: get-repository answering
    that the repository does not exist. *)
Definition notFoundCase (c : Call) (e : error) : bool :=
  match c with
  | CallGetRepository _ => isAWSErr e ErrCodeRepositoryDoesNotExistException ""
  | _ => false
  end.

(** The text put before the error of a failed call, for a resource [id]. *)
Definition errorPrefix (c : Call) (id : string) : string :=
  match c with
  | CallCreateRepository _ => "Error creating CodeCommit Repository: "
  | CallGetRepository _ => "Error reading CodeCommit Repository: "
  | CallDeleteRepository _ => "Error deleting CodeCommit Repository: "
  | CallUpdateRepositoryDescription _ =>
      "Error Updating Repository Description for CodeCommit Repository: "
  | CallUpdateDefaultBranch _ => "Error Updating Default Branch for CodeCommit Repository: "
  | CallListBranches _ => "Error reading CodeCommit Repository branches: "
  | CallListTagsForResource _ => "error listing CodeCommit Repository tags for " ++ id ++ ": "
  | CallSetTags _ => "error updating CodeCommit Repository tags for " ++ id ++ ": "
  end.

(** How the result of a handler relates to the calls it made: either every
    call succeeded and the result is nil, or the last call is the only one
    that failed; then the result is nil in the not-found case and the
    wrapped error otherwise. *)
Inductive Outcome (id : string) : option error -> list Event -> Prop :=
| Outcome_ok tr :
    Forall succeeded tr -> Outcome id None tr
| Outcome_not_found tr c e :
    Forall succeeded tr -> notFoundCase c e = true ->
    Outcome id None (tr ++ [(c, Some e)])
| Outcome_failed tr c e :
    Forall succeeded tr -> notFoundCase c e = false ->
    Outcome id (Some (Errorf (errorPrefix c id) (Error e))) (tr ++ [(c, Some e)]).

(** The kinds of calls. *)
Definition isBranchCall (c : Call) : bool :=
  match c with CallListBranches _ | CallUpdateDefaultBranch _ => true | _ => false end.
Definition isDescriptionCall (c : Call) : bool :=
  match c with CallUpdateRepositoryDescription _ => true | _ => false end.
Definition isSetTags (c : Call) : bool :=
  match c with CallSetTags _ => true | _ => false end.
Definition isReadCall (c : Call) : bool :=
  match c with CallGetRepository _ | CallListTagsForResource _ => true | _ => false end.
Definition isUpdateDefaultBranch (c : Call) : bool :=
  match c with CallUpdateDefaultBranch _ => true | _ => false end.
Definition isDeleteCall (c : Call) : bool :=
  match c with CallDeleteRepository _ => true | _ => false end.
Definition isUpdateCall (c : Call) : bool :=
  isBranchCall c || isDescriptionCall c || isSetTags c.
Definition isUpdateOrReadCall (c : Call) : bool :=
  isUpdateCall c || isReadCall c.
Definition anyCall (c : Call) : bool := true.

Definition ofKind (K : Call -> bool) (tr : list Event) : Prop :=
  Forall (fun ev => K (fst ev) = true) tr.

(** The operation a call is a call of, its request left out. *)
Inductive Operation : Type :=
| OpCreateRepository
| OpGetRepository
| OpDeleteRepository
| OpUpdateRepositoryDescription
| OpUpdateDefaultBranch
| OpListBranches
| OpListTagsForResource
| OpSetTags.

#[global] Instance Operation_eq_dec : EqDecision Operation.
Proof. solve_decision. Defined.

Definition operationOf (c : Call) : Operation :=
  match c with
  | CallCreateRepository _ => OpCreateRepository
  | CallGetRepository _ => OpGetRepository
  | CallDeleteRepository _ => OpDeleteRepository
  | CallUpdateRepositoryDescription _ => OpUpdateRepositoryDescription
  | CallUpdateDefaultBranch _ => OpUpdateDefaultBranch
  | CallListBranches _ => OpListBranches
  | CallListTagsForResource _ => OpListTagsForResource
  | CallSetTags _ => OpSetTags
  end.

(** The operations of a log, in the order of the calls. *)
Definition operations (tr : list Event) : list Operation :=
  map (fun ev => operationOf (fst ev)) tr.

(** The operations of Update in the order of the source: the
    default-branch step, the description step, the tag helper, Read. *)
Definition updateOperations : list Operation :=
  [OpListBranches; OpUpdateDefaultBranch; OpUpdateRepositoryDescription; OpSetTags;
   OpGetRepository; OpListTagsForResource].

(** A handler run from [st]: the calls of kind [K] it adds to the log and
    its result. *)
Definition Handled {W} (K : Call -> bool) (id : string) (m : M W (option error)) (st : St W)
  : Prop :=
  exists tr,
    calls (snd (m st)) = (calls st ++ tr)%list /\ ofKind K tr /\ Outcome id (fst (m st)) tr.

(** A step of a handler: it moreover leaves the resource data alone and
    reports every failure. *)
Definition Step {W} (K : Call -> bool) (id : string) (m : M W (option error)) (st : St W)
  : Prop :=
  exists tr,
    calls (snd (m st)) = (calls st ++ tr)%list /\
    data (snd (m st)) = data st /\
    ofKind K tr /\
    Outcome id (fst (m st)) tr /\
    (fst (m st) = None -> Forall succeeded tr).

(* ===================================================================== *)
(** ** A scripted service *)
(* ===================================================================== *)

(** A client whose operations give fixed answers, and resource data for a
    repository called "demo"; the concrete runs below use them. *)
Module Demo.

Record Answers : Type := mkAnswers {
  onCreate : result CreateRepositoryOutput.t;
  onGet : result GetRepositoryOutput.t;
  onDelete : result DeleteRepositoryOutput.t;
  onDescription : result unit;
  onDefaultBranch : result unit;
  onBranches : result ListBranchesOutput.t;
  onTags : result ListTagsForResourceOutput.t;
}.

Definition service (a : Answers) : CodeCommit unit :=
  {| CreateRepository := fun _ w => (onCreate a, w);
     GetRepository := fun _ w => (onGet a, w);
     DeleteRepository := fun _ w => (onDelete a, w);
     UpdateRepositoryDescription := fun _ w => (onDescription a, w);
     UpdateDefaultBranch := fun _ w => (onDefaultBranch a, w);
     ListBranches := fun _ w => (onBranches a, w);
     ListTagsForResource := fun _ w => (onTags a, w) |}.

Definition metadata : RepositoryMetadata.t :=
  {| RepositoryMetadata.Arn := Some "arn:aws:codecommit:us-east-1:111122223333:demo";
     RepositoryMetadata.CloneUrlHttp :=
       Some "https://git-codecommit.us-east-1.amazonaws.com/v1/repos/demo";
     RepositoryMetadata.CloneUrlSsh :=
       Some "ssh://git-codecommit.us-east-1.amazonaws.com/v1/repos/demo";
     RepositoryMetadata.DefaultBranch := Some "main";
     RepositoryMetadata.RepositoryDescription := Some "a demonstration";
     RepositoryMetadata.RepositoryId := Some "f7579e13-b83e-4027-aaef-650c0EXAMPLE";
     RepositoryMetadata.RepositoryName := Some "demo" |}.

(** Every operation succeeds; the repository has one branch. *)
Definition healthy : Answers :=
  {| onCreate := Ok {| CreateRepositoryOutput.RepositoryMetadata := metadata |};
     onGet := Ok {| GetRepositoryOutput.RepositoryMetadata := metadata |};
     onDelete := Ok {| DeleteRepositoryOutput.RepositoryId := RepositoryMetadata.RepositoryId metadata |};
     onDescription := Ok tt;
     onDefaultBranch := Ok tt;
     onBranches := Ok {| ListBranchesOutput.Branches := [Some "main"] |};
     onTags := Ok {| ListTagsForResourceOutput.Tags := {[ "team" := Some "tools" ]} |} |}.

Definition notFound : error :=
  AwsErr "RepositoryDoesNotExistException" "demo does not exist".

Definition throttled : error := AwsErr "ThrottlingException" "Rate exceeded".

(** The repository is gone. *)
Definition missing : Answers :=
  {| onCreate := onCreate healthy; onGet := Err notFound; onDelete := onDelete healthy;
     onDescription := onDescription healthy; onDefaultBranch := onDefaultBranch healthy;
     onBranches := onBranches healthy; onTags := onTags healthy |}.

(** get-repository is throttled. *)
Definition unreadable : Answers :=
  {| onCreate := onCreate healthy; onGet := Err throttled; onDelete := onDelete healthy;
     onDescription := onDescription healthy; onDefaultBranch := onDefaultBranch healthy;
     onBranches := onBranches healthy; onTags := onTags healthy |}.

(** create-repository is refused. *)
Definition taken : Answers :=
  {| onCreate := Err (AwsErr "RepositoryNameExistsException" "demo already exists");
     onGet := onGet healthy; onDelete := onDelete healthy;
     onDescription := onDescription healthy; onDefaultBranch := onDefaultBranch healthy;
     onBranches := onBranches healthy; onTags := onTags healthy |}.

(** The repository has no branch yet. *)
Definition empty : Answers :=
  {| onCreate := onCreate healthy; onGet := onGet healthy; onDelete := onDelete healthy;
     onDescription := onDescription healthy; onDefaultBranch := onDefaultBranch healthy;
     onBranches := Ok {| ListBranchesOutput.Branches := [] |}; onTags := onTags healthy |}.

(** update-repository-description is throttled. *)
Definition frozen : Answers :=
  {| onCreate := onCreate healthy; onGet := onGet healthy; onDelete := onDelete healthy;
     onDescription := Err throttled; onDefaultBranch := onDefaultBranch healthy;
     onBranches := onBranches healthy; onTags := onTags healthy |}.

(** delete-repository is throttled. *)
Definition undeletable : Answers :=
  {| onCreate := onCreate healthy; onGet := onGet healthy; onDelete := Err throttled;
     onDescription := onDescription healthy; onDefaultBranch := onDefaultBranch healthy;
     onBranches := onBranches healthy; onTags := onTags healthy |}.

(** list-tags-for-resource is throttled. *)
Definition untaggable : Answers :=
  {| onCreate := onCreate healthy; onGet := onGet healthy; onDelete := onDelete healthy;
     onDescription := onDescription healthy; onDefaultBranch := onDefaultBranch healthy;
     onBranches := onBranches healthy; onTags := Err throttled |}.

(** get-repository and delete-repository answer that the repository does
    not exist. *)
Definition alreadyDeleted : Answers :=
  {| onCreate := onCreate healthy; onGet := Err notFound; onDelete := Err notFound;
     onDescription := onDescription healthy; onDefaultBranch := onDefaultBranch healthy;
     onBranches := onBranches healthy; onTags := onTags healthy |}.

Definition tagsFromMap (m : gmap string string) : gmap string (option string) := Some <$> m.
Definition tagsToMap (m : gmap string (option string)) : gmap string string := omap id m.

(** A tag-reconciliation helper that succeeds, and one that fails. *)
Definition setTags : CodeCommit unit -> ResourceData -> unit -> option error * unit :=
  fun _ _ w => (None, w).
Definition setTagsFailing : CodeCommit unit -> ResourceData -> unit -> option error * unit :=
  fun _ _ w => (Some (AwsErr "TooManyTagsException" "too many tags"), w).

(** The configuration of the repository. *)
Definition configuration : gmap string Value :=
  {[ "repository_name" := VString (Some "demo");
     "description" := VString (Some "a demonstration");
     "default_branch" := VString (Some "main");
     "tags" := VMap {[ "team" := "tools" ]} ]}.

(** The data of a repository being created. *)
Definition planned : ResourceData :=
  {| Id := ""; attrs := configuration;
     changed := {[ "repository_name"; "description"; "default_branch"; "tags" ]};
     isNew := true |}.

(** The data of an existing repository whose default branch and
    description are being changed. *)
Definition existing : ResourceData :=
  {| Id := "demo"; attrs := configuration;
     changed := {[ "description"; "default_branch" ]};
     isNew := false |}.

(** The data of an existing repository whose configuration names no
    default branch. *)
Definition plain : ResourceData :=
  {| Id := "demo";
     attrs := {[ "repository_name" := VString (Some "demo") ]};
     changed := ∅;
     isNew := false |}.

(** The data of a new repository for which nothing is planned beyond its
    name. *)
Definition bare : ResourceData :=
  {| Id := "demo";
     attrs := {[ "repository_name" := VString (Some "demo") ]};
     changed := ∅;
     isNew := true |}.

(** A run starts with an empty log. *)
Definition start (d : ResourceData) : St unit := mkSt d tt [].

Definition Read (a : Answers) : M unit (option error) :=
  resourceAwsCodeCommitRepositoryRead (service a) tagsToMap.
Definition Update (a : Answers) : M unit (option error) :=
  resourceAwsCodeCommitRepositoryUpdate (service a) tagsToMap setTags.
Definition Create (a : Answers) : M unit (option error) :=
  resourceAwsCodeCommitRepositoryCreate (service a) tagsFromMap tagsToMap setTags.
Definition Delete (a : Answers) : M unit (option error) :=
  resourceAwsCodeCommitRepositoryDelete (service a).

End Demo.

Arguments Set_ : simpl never.
Arguments Get : simpl never.
Arguments GetOk : simpl never.
Arguments HasChange : simpl never.

(** The string attributes of the schema. *)
Definition stringAttribute (k : string) : Prop :=
  Type_ <$> resourceSchema !! k = Some TypeString.

Create HintDb schema.

(** Unfolding of the monad: every step becomes a [let] on the state. *)
Ltac unfold_m :=
  unfold andThen, bind, ret, getData, SetId, dSet, invoke, callSetTags in *; simpl in *.

(** The parts of [Step] and of [Handled]. *)
Ltac step_parts := split; [|split; [|split; [|split]]].
Ltac handled_parts := split; [|split].

(** One part of [Step] or [Handled] for a log of one or two calls. *)
Ltac step_goal :=
  lazymatch goal with
  | |- Some _ = None -> _ => discriminate
  | |- None = None -> _ => intros _; repeat constructor
  | |- _ = _ => reflexivity
  | |- ofKind _ _ => repeat constructor
  | |- Outcome _ None _ => apply Outcome_ok; repeat constructor
  | |- Outcome ?id (Some _) [(?c, Some ?e)] =>
      apply (Outcome_failed id [] c e); [constructor | reflexivity]
  | |- Outcome ?id (Some _) [?ev; (?c, Some ?e)] =>
      apply (Outcome_failed id [ev] c e); [repeat constructor | reflexivity]
  end.

Ltac one_call := eexists [_]; simpl; step_parts; step_goal.
Ltac two_calls := rewrite <- app_assoc; eexists [_; _]; simpl; step_parts; step_goal.

(* ===================================================================== *)
(** ** Basic facts about the accessors *)
(* ===================================================================== *)

Lemma Contains_empty (s : string) : Contains s "" = true.
Proof. destruct s; reflexivity. Qed.

Lemma isAWSErr_code (code message : string) :
  isAWSErr (AwsErr code message) ErrCodeRepositoryDoesNotExistException ""
  = String.eqb code ErrCodeRepositoryDoesNotExistException.
Proof. simpl. rewrite Contains_empty. apply andb_true_r. Qed.

Lemma Set_string (k : string) (o : option string) (d : ResourceData) :
  stringAttribute k -> Set_ k (VString o) d = (None, withAttr k (VString o) d).
Proof.
  unfold stringAttribute, Set_. intros H.
  destruct (resourceSchema !! k) as [s|]; simpl in H; [|discriminate].
  injection H as ->. reflexivity.
Qed.

Lemma Set_tags (m : gmap string string) (d : ResourceData) :
  Set_ "tags" (VMap m) d = (None, withAttr "tags" (VMap m) d).
Proof. reflexivity. Qed.

Lemma stringAttribute_repository_id : stringAttribute "repository_id".
Proof. reflexivity. Qed.
Lemma stringAttribute_arn : stringAttribute "arn".
Proof. reflexivity. Qed.
Lemma stringAttribute_clone_url_http : stringAttribute "clone_url_http".
Proof. reflexivity. Qed.
Lemma stringAttribute_clone_url_ssh : stringAttribute "clone_url_ssh".
Proof. reflexivity. Qed.
Lemma stringAttribute_description : stringAttribute "description".
Proof. reflexivity. Qed.
Lemma stringAttribute_repository_name : stringAttribute "repository_name".
Proof. reflexivity. Qed.
Lemma stringAttribute_default_branch : stringAttribute "default_branch".
Proof. reflexivity. Qed.

#[global] Hint Resolve stringAttribute_repository_id stringAttribute_arn
  stringAttribute_clone_url_http stringAttribute_clone_url_ssh
  stringAttribute_description stringAttribute_repository_name
  stringAttribute_default_branch : schema.

(** Rewriting of the writes to the string attributes. *)
Ltac set_strings :=
  repeat (rewrite Set_string by auto with schema); simpl.

Lemma attrs_withAttr_eq k v d : attrs (withAttr k v d) !! k = Some v.
Proof. apply lookup_insert_eq. Qed.

Lemma attrs_withAttr_ne k k' v d : k ≠ k' -> attrs (withAttr k v d) !! k' = attrs d !! k'.
Proof. intros. simpl. by apply lookup_insert_ne. Qed.

Lemma GetOk_withAttr_ne k k' v d : k ≠ k' -> GetOk k' (withAttr k v d) = GetOk k' d.
Proof.
  intros H. unfold GetOk, Get. rewrite attrs_withAttr_ne by done. reflexivity.
Qed.

Lemma GetOk_default_branch_copied md d :
  GetOk "default_branch" (copied md d) = GetOk "default_branch" d.
Proof. unfold copied. by rewrite !GetOk_withAttr_ne. Qed.

Lemma Id_copied md d : Id (copied md d) = Id d.
Proof. reflexivity. Qed.

Lemma Id_branched md d : Id (branched md d) = Id d.
Proof.
  unfold branched. destruct (snd _); [|done].
  by destruct (RepositoryMetadata.DefaultBranch md).
Qed.

Lemma attrs_branched_ne md d k :
  k ≠ "default_branch" -> attrs (branched md d) !! k = attrs d !! k.
Proof.
  intros H. unfold branched. destruct (snd _); [|done].
  destruct (RepositoryMetadata.DefaultBranch md); [|done].
  by apply attrs_withAttr_ne.
Qed.

Lemma attrs_copied_default_branch md d :
  attrs (copied md d) !! "default_branch" = attrs d !! "default_branch".
Proof. unfold copied. by rewrite !attrs_withAttr_ne. Qed.

(* ===================================================================== *)
(** ** General facts about logs and outcomes *)
(* ===================================================================== *)

Lemma newCalls_app {W A} (m : M W A) (st : St W) (tr : list Event) :
  calls (snd (m st)) = (calls st ++ tr)%list -> newCalls m st = tr.
Proof. intros H. unfold newCalls. rewrite H. apply drop_app_length. Qed.

Lemma Extends_newCalls {W A} (m : M W A) (st : St W) :
  Extends m st -> calls (snd (m st)) = (calls st ++ newCalls m st)%list.
Proof. intros [tr H]. by rewrite (newCalls_app _ _ _ H). Qed.

Lemma Step_Extends {W} K id (m : M W (option error)) st : Step K id m st -> Extends m st.
Proof. intros (tr & H & _). by exists tr. Qed.

Lemma Handled_Extends {W} K id (m : M W (option error)) st : Handled K id m st -> Extends m st.
Proof. intros (tr & H & _). by exists tr. Qed.

Lemma Step_data {W} K id (m : M W (option error)) st :
  Step K id m st -> data (snd (m st)) = data st.
Proof. by intros (tr & _ & H & _). Qed.

Lemma Step_newCalls {W} K id (m : M W (option error)) st :
  Step K id m st ->
  ofKind K (newCalls m st) /\ Outcome id (fst (m st)) (newCalls m st) /\
  (fst (m st) = None -> Forall succeeded (newCalls m st)).
Proof. intros (tr & H & _ & ? & ? & ?). by rewrite (newCalls_app _ _ _ H). Qed.

Lemma Handled_newCalls {W} K id (m : M W (option error)) st :
  Handled K id m st ->
  ofKind K (newCalls m st) /\ Outcome id (fst (m st)) (newCalls m st).
Proof. intros (tr & H & ? & ?). by rewrite (newCalls_app _ _ _ H). Qed.

Lemma Step_Handled {W} K id (m : M W (option error)) st : Step K id m st -> Handled K id m st.
Proof. intros (tr & ? & _ & ? & ? & _). by exists tr. Qed.

Lemma Outcome_app id r tr1 tr2 :
  Forall succeeded tr1 -> Outcome id r tr2 -> Outcome id r (tr1 ++ tr2).
Proof.
  intros H1 H2. destruct H2 as [tr H|tr c e H Hn|tr c e H Hn].
  - apply Outcome_ok. by apply Forall_app.
  - rewrite app_assoc. apply Outcome_not_found; [by apply Forall_app | done].
  - rewrite app_assoc. apply Outcome_failed; [by apply Forall_app | done].
Qed.

(** In a log with an outcome, a failed call other than the not-found case
    is the last one and its wrapped error is the result. *)
Lemma Outcome_surfaced id r tr (i : nat) c e :
  Outcome id r tr -> tr !! i = Some (c, Some e) -> notFoundCase c e = false ->
  r = Some (Errorf (errorPrefix c id) (Error e)) /\ length tr = S i.
Proof.
  intros Ho Hi Hn.
  assert (Hlast : forall tr' c' e', Forall succeeded tr' ->
            (tr' ++ [(c', Some e')])%list !! i = Some (c, Some e) ->
            c' = c /\ e' = e /\ length (tr' ++ [(c', Some e')])%list = S i).
  { intros tr' c' e' Hall Hl.
    apply lookup_app_Some in Hl as [Hl|[Hle Hl]].
    - rewrite Forall_lookup in Hall. specialize (Hall _ _ Hl). discriminate.
    - apply list_lookup_singleton_Some in Hl as [Hz Heq].
      injection Heq as -> ->. rewrite length_app. simpl.
      unfold Event in *. repeat split; lia. }
  destruct Ho as [tr Hall|tr c' e' Hall Hn'|tr c' e' Hall Hn'].
  - rewrite Forall_lookup in Hall. specialize (Hall _ _ Hi). discriminate.
  - destruct (Hlast _ _ _ Hall Hi) as (-> & -> & _). congruence.
  - destruct (Hlast _ _ _ Hall Hi) as (-> & -> & Hlen). done.
Qed.

(** When every call succeeded the result is nil. *)
Lemma Outcome_succeeded id r tr : Outcome id r tr -> Forall succeeded tr -> r = None.
Proof.
  intros Ho Hall. destruct Ho as [tr _|tr c e _ _|tr c e _ _]; try done.
  apply Forall_app in Hall as [_ Hall]. by inversion Hall.
Qed.

Lemma ofKind_weaken (K K' : Call -> bool) tr :
  (forall c, K c = true -> K' c = true) -> ofKind K tr -> ofKind K' tr.
Proof.
  intros HK H. unfold ofKind in *.
  eapply Forall_impl; [exact H|]. intros ev Hev. by apply HK.
Qed.

Lemma ofKind_app K tr1 tr2 : ofKind K tr1 -> ofKind K tr2 -> ofKind K (tr1 ++ tr2).
Proof. intros. by apply Forall_app. Qed.

(** A log of one kind holds no call of a disjoint kind. *)
Lemma ofKind_disjoint (K K' : Call -> bool) tr c o :
  (forall c, K c = true -> K' c = false) -> ofKind K tr -> (c, o) ∈ tr -> K' c = false.
Proof.
  intros HK H Hin. unfold ofKind in H. rewrite Forall_forall in H.
  apply HK. exact (H _ Hin).
Qed.

Lemma Step_weaken {W} (K K' : Call -> bool) id (m : M W (option error)) st :
  (forall c, K c = true -> K' c = true) -> Step K id m st -> Step K' id m st.
Proof.
  intros HK (tr & ? & ? & ? & ? & ?). exists tr.
  step_parts; eauto using ofKind_weaken.
Qed.

Lemma Step_ret {W} K id (st : St W) : Step K id (ret None) st.
Proof.
  exists []. simpl. rewrite app_nil_r.
  step_parts; try done; constructor. constructor.
Qed.

Lemma andThen_eq {W} (m1 m2 : M W (option error)) (st : St W) :
  andThen m1 m2 st =
    match fst (m1 st) with
    | Some err => (Some err, snd (m1 st))
    | None => m2 (snd (m1 st))
    end.
Proof. unfold andThen, bind. by destruct (m1 st) as [[err|] s1]. Qed.

Lemma andThen_assoc {W} (m1 m2 m3 : M W (option error)) (st : St W) :
  andThen (andThen m1 m2) m3 st = andThen m1 (andThen m2 m3) st.
Proof.
  unfold andThen, bind. destruct (m1 st) as [[err|] s1]; [done|].
  by destruct (m2 s1) as [[err|] s2].
Qed.

Lemma fst_andThen {W} (m1 m2 : M W (option error)) (st : St W) :
  fst (andThen m1 m2 st) =
    match fst (m1 st) with
    | Some err => Some err
    | None => fst (m2 (snd (m1 st)))
    end.
Proof. unfold andThen, bind. by destruct (m1 st) as [[err|] s1]. Qed.

Lemma snd_andThen {W} (m1 m2 : M W (option error)) (st : St W) :
  snd (andThen m1 m2 st) =
    match fst (m1 st) with
    | Some err => snd (m1 st)
    | None => snd (m2 (snd (m1 st)))
    end.
Proof. unfold andThen, bind. by destruct (m1 st) as [[err|] s1]. Qed.

(** The calls of two steps in a row. *)
Lemma newCalls_andThen {W} (m1 m2 : M W (option error)) (st : St W) :
  Extends m1 st -> Extends m2 (snd (m1 st)) ->
  newCalls (andThen m1 m2) st =
    (newCalls m1 st ++
     match fst (m1 st) with
     | Some _ => []
     | None => newCalls m2 (snd (m1 st))
     end)%list.
Proof.
  intros H1 H2. apply newCalls_app. rewrite snd_andThen.
  destruct (fst (m1 st)).
  - rewrite app_nil_r. by apply Extends_newCalls.
  - rewrite (Extends_newCalls _ _ H2), (Extends_newCalls _ _ H1). by rewrite app_assoc.
Qed.

Lemma Step_andThen {W} K id (m1 m2 : M W (option error)) (st : St W) :
  Step K id m1 st -> Step K id m2 (snd (m1 st)) -> Step K id (andThen m1 m2) st.
Proof.
  intros (tr1 & Hc1 & Hd1 & Hk1 & Ho1 & Hn1) (tr2 & Hc2 & Hd2 & Hk2 & Ho2 & Hn2).
  unfold Step, andThen, bind. destruct (m1 st) as [[err|] s1]; simpl in *.
  - exists tr1. step_parts; auto.
  - exists (tr1 ++ tr2)%list. rewrite Hc2, Hc1, Hd2, Hd1, app_assoc.
    step_parts; auto.
    + by apply Forall_app.
    + apply Outcome_app; auto.
    + intros H. apply Forall_app. auto.
Qed.

(** A step followed by a handler. *)
Lemma Handled_andThen {W} K id (m1 m2 : M W (option error)) (st : St W) :
  Step K id m1 st -> Handled K id m2 (snd (m1 st)) -> Handled K id (andThen m1 m2) st.
Proof.
  intros (tr1 & Hc1 & Hd1 & Hk1 & Ho1 & Hn1) (tr2 & Hc2 & Hk2 & Ho2).
  unfold Handled, andThen, bind. destruct (m1 st) as [[err|] s1]; simpl in *.
  - exists tr1. handled_parts; auto.
  - exists (tr1 ++ tr2)%list. rewrite Hc2, Hc1, app_assoc.
    handled_parts; auto.
    + by apply Forall_app.
    + apply Outcome_app; auto.
Qed.

(* ===================================================================== *)
(** ** What each handler computes *)
(* ===================================================================== *)

Section Equations.

Context {W : Type}.
Variable conn : CodeCommit W.
Variable tagsFromMapCodeCommit : gmap string string -> gmap string (option string).
Variable tagsToMapCodeCommit : gmap string (option string) -> gmap string string.
Variable setTagsCodeCommit : CodeCommit W -> ResourceData -> W -> option error * W.

Local Abbreviation Read := (resourceAwsCodeCommitRepositoryRead conn tagsToMapCodeCommit).
Local Abbreviation Update :=
  (resourceAwsCodeCommitRepositoryUpdate conn tagsToMapCodeCommit setTagsCodeCommit).
Local Abbreviation Create :=
  (resourceAwsCodeCommitRepositoryCreate conn tagsFromMapCodeCommit tagsToMapCodeCommit
     setTagsCodeCommit).
Local Abbreviation Delete := (resourceAwsCodeCommitRepositoryDelete conn).
Local Abbreviation UpdateDefaultBranchStep := (resourceAwsCodeCommitUpdateDefaultBranch conn).
Local Abbreviation UpdateDescriptionStep := (resourceAwsCodeCommitUpdateDescription conn).

Lemma Read_failed (st : St W) (err : error) (w1 : W) :
  GetRepository conn (readInput (data st)) (remote st) = (Err err, w1) ->
  Read st =
    let log := (calls st ++ [(CallGetRepository (readInput (data st)), Some err)])%list in
    if isAWSErr err ErrCodeRepositoryDoesNotExistException ""
    then (None, mkSt (withId "" (data st)) w1 log)
    else (Some (Errorf "Error reading CodeCommit Repository: " (Error err)),
          mkSt (data st) w1 log).
Proof.
  intros H. unfold resourceAwsCodeCommitRepositoryRead, readInput in *. unfold_m.
  rewrite H. simpl. destruct (isAWSErr _ _ _); reflexivity.
Qed.

Lemma Read_got (st : St W) (out : GetRepositoryOutput.t) (w1 : W) :
  GetRepository conn (readInput (data st)) (remote st) = (Ok out, w1) ->
  Read st =
    let md := GetRepositoryOutput.RepositoryMetadata out in
    let d1 := branched md (copied md (data st)) in
    let input := {| ListTagsForResourceInput.ResourceArn := RepositoryMetadata.Arn md |} in
    let (rt, w2) := ListTagsForResource conn input w1 in
    let log := ((calls st ++ [(CallGetRepository (readInput (data st)), None)])
                  ++ [(CallListTagsForResource input, errorOf rt)])%list in
    match rt with
    | Err err =>
        (Some (Errorf ("error listing CodeCommit Repository tags for " ++ Id (data st) ++ ": ")
                      (Error err)),
         mkSt d1 w2 log)
    | Ok tagList =>
        (None,
         mkSt (withAttr "tags" (VMap (tagsToMapCodeCommit (ListTagsForResourceOutput.Tags tagList))) d1)
              w2 log)
    end.
Proof.
  intros H. unfold resourceAwsCodeCommitRepositoryRead, readInput in *. unfold_m.
  rewrite H. simpl. set_strings.
  fold (copied (GetRepositoryOutput.RepositoryMetadata out) (data st)).
  set (md := GetRepositoryOutput.RepositoryMetadata out).
  set (d6 := copied md (data st)).
  assert (Hid : Id d6 = Id (data st)) by reflexivity.
  unfold branched. fold d6.
  destruct (snd (GetOk "default_branch" d6)); simpl.
  - destruct (RepositoryMetadata.DefaultBranch md) as [b|]; simpl; set_strings;
      destruct (ListTagsForResource conn _ w1) as [[tl|e] w2]; simpl;
      rewrite ?Set_tags; simpl; rewrite ?Hid; reflexivity.
  - destruct (ListTagsForResource conn _ w1) as [[tl|e] w2]; simpl;
      rewrite ?Set_tags; simpl; rewrite ?Hid; reflexivity.
Qed.

Lemma Create_failed (st : St W) (err : error) (w1 : W) :
  CreateRepository conn (createInput tagsFromMapCodeCommit (data st)) (remote st)
    = (Err err, w1) ->
  Create st =
    (Some (Errorf "Error creating CodeCommit Repository: " (Error err)),
     mkSt (data st) w1
          (calls st ++ [(CallCreateRepository (createInput tagsFromMapCodeCommit (data st)),
                         Some err)])).
Proof.
  intros H. unfold resourceAwsCodeCommitRepositoryCreate, createInput in *. unfold_m.
  rewrite H. reflexivity.
Qed.

Lemma Create_created (st : St W) (out : CreateRepositoryOutput.t) (w1 : W) :
  CreateRepository conn (createInput tagsFromMapCodeCommit (data st)) (remote st)
    = (Ok out, w1) ->
  Create st =
    Update (mkSt (created (CreateRepositoryOutput.RepositoryMetadata out) (data st)) w1
                 (calls st ++ [(CallCreateRepository (createInput tagsFromMapCodeCommit (data st)),
                                None)])).
Proof.
  intros H. unfold resourceAwsCodeCommitRepositoryCreate, createInput in *.
  unfold bind at 1 2. unfold getData at 1. unfold invoke at 1. rewrite H.
  unfold bind, SetId, dSet. simpl. set_strings. reflexivity.
Qed.

Lemma Delete_eq (st : St W) :
  Delete st =
    let (r, w1) := DeleteRepository conn (deleteInput (data st)) (remote st) in
    (match r with
     | Err err => Some (Errorf "Error deleting CodeCommit Repository: " (Error err))
     | Ok _ => None
     end,
     mkSt (data st) w1 (calls st ++ [(CallDeleteRepository (deleteInput (data st)), errorOf r)])).
Proof.
  unfold resourceAwsCodeCommitRepositoryDelete, deleteInput. unfold_m.
  destruct (DeleteRepository conn _ (remote st)) as [[o|e] w1]; reflexivity.
Qed.

Lemma UpdateDefaultBranch_eq (st : St W) :
  UpdateDefaultBranchStep st =
    let d := data st in
    let (r, w1) := ListBranches conn (listBranchesInput d) (remote st) in
    let log1 := (calls st ++ [(CallListBranches (listBranchesInput d), errorOf r)])%list in
    match r with
    | Err err =>
        (Some (Errorf "Error reading CodeCommit Repository branches: " (Error err)),
         mkSt d w1 log1)
    | Ok out =>
        match ListBranchesOutput.Branches out with
        | [] => (None, mkSt d w1 log1)
        | _ :: _ =>
            let (r', w2) := UpdateDefaultBranch conn (updateDefaultBranchInput d) w1 in
            (match r' with
             | Err err =>
                 Some (Errorf "Error Updating Default Branch for CodeCommit Repository: "
                              (Error err))
             | Ok _ => None
             end,
             mkSt d w2
                  (log1 ++ [(CallUpdateDefaultBranch (updateDefaultBranchInput d), errorOf r')]))
        end
    end.
Proof.
  unfold resourceAwsCodeCommitUpdateDefaultBranch, listBranchesInput, updateDefaultBranchInput.
  unfold_m.
  destruct (ListBranches conn _ (remote st)) as [[o|e] w1]; simpl; [|reflexivity].
  destruct (ListBranchesOutput.Branches o) as [|b bs]; simpl; [reflexivity|].
  destruct (UpdateDefaultBranch conn _ w1) as [[o'|e] w2]; reflexivity.
Qed.

(** Update is its three steps and then Read. *)
Lemma Update_steps (st : St W) :
  Update st = andThen (updateSteps conn setTagsCodeCommit (data st)) Read st.
Proof.
  unfold resourceAwsCodeCommitRepositoryUpdate, updateSteps, defaultBranchStep,
    descriptionStep, tagsStep, andThen.
  unfold bind, getData.
  destruct (snd (GetOk "default_branch" (data st))), (HasChange "default_branch" (data st));
    simpl;
    repeat match goal with
           | |- context [let (_, _) := ?m ?s in _] =>
               destruct (m s) as [[?|] ?]; simpl; try reflexivity
           end.
Qed.

End Equations.

(* ===================================================================== *)
(** ** The calls each handler makes *)
(* ===================================================================== *)

Section Steps.

Context {W : Type}.
Variable conn : CodeCommit W.
Variable tagsFromMapCodeCommit : gmap string string -> gmap string (option string).
Variable tagsToMapCodeCommit : gmap string (option string) -> gmap string string.
Variable setTagsCodeCommit : CodeCommit W -> ResourceData -> W -> option error * W.

Local Abbreviation Read := (resourceAwsCodeCommitRepositoryRead conn tagsToMapCodeCommit).
Local Abbreviation Update :=
  (resourceAwsCodeCommitRepositoryUpdate conn tagsToMapCodeCommit setTagsCodeCommit).
Local Abbreviation Create :=
  (resourceAwsCodeCommitRepositoryCreate conn tagsFromMapCodeCommit tagsToMapCodeCommit
     setTagsCodeCommit).
Local Abbreviation Delete := (resourceAwsCodeCommitRepositoryDelete conn).

Lemma UpdateDescription_Step (st : St W) :
  Step isDescriptionCall (Id (data st)) (resourceAwsCodeCommitUpdateDescription conn) st.
Proof.
  unfold Step, resourceAwsCodeCommitUpdateDescription. unfold_m.
  destruct (UpdateRepositoryDescription conn _ (remote st)) as [[o|e] w1]; simpl; one_call.
Qed.

Lemma UpdateDefaultBranch_Step (st : St W) :
  Step isBranchCall (Id (data st)) (resourceAwsCodeCommitUpdateDefaultBranch conn) st.
Proof.
  unfold Step. rewrite UpdateDefaultBranch_eq. simpl.
  destruct (ListBranches conn _ (remote st)) as [[o|e] w1]; simpl; [|one_call].
  destruct (ListBranchesOutput.Branches o) as [|b bs]; simpl; [one_call|].
  destruct (UpdateDefaultBranch conn _ w1) as [[o'|e] w2]; simpl; two_calls.
Qed.

Lemma tagsStep_Step (st : St W) :
  Step isSetTags (Id (data st)) (tagsStep conn setTagsCodeCommit (data st)) st.
Proof.
  unfold tagsStep. destruct (negb _); [|apply Step_ret].
  unfold Step. unfold_m.
  destruct (setTagsCodeCommit conn (data st) (remote st)) as [[e|] w1]; simpl; one_call.
Qed.

Lemma defaultBranchStep_Step (st : St W) :
  Step isBranchCall (Id (data st)) (defaultBranchStep conn (data st)) st.
Proof.
  unfold defaultBranchStep.
  destruct (snd _); [|apply Step_ret].
  destruct (HasChange _ _); [apply UpdateDefaultBranch_Step | apply Step_ret].
Qed.

Lemma descriptionStep_Step (st : St W) :
  Step isDescriptionCall (Id (data st)) (descriptionStep conn (data st)) st.
Proof.
  unfold descriptionStep.
  destruct (HasChange _ _); [apply UpdateDescription_Step | apply Step_ret].
Qed.

(** The steps of Update run on the data Update was called with, so the
    lemmas above apply to the later steps from the later states. *)
Lemma descriptionStep_Step_after (d : ResourceData) (st : St W) :
  data st = d -> Step isDescriptionCall (Id d) (descriptionStep conn d) st.
Proof. intros <-. apply descriptionStep_Step. Qed.

Lemma tagsStep_Step_after (d : ResourceData) (st : St W) :
  data st = d -> Step isSetTags (Id d) (tagsStep conn setTagsCodeCommit d) st.
Proof. intros <-. apply tagsStep_Step. Qed.

Lemma branchAndDescription_Step (st : St W) :
  Step (fun c => isBranchCall c || isDescriptionCall c) (Id (data st))
    (andThen (defaultBranchStep conn (data st)) (descriptionStep conn (data st))) st.
Proof.
  pose proof (defaultBranchStep_Step st) as H1.
  apply Step_andThen.
  - eapply Step_weaken; [|exact H1]. by intros c ->.
  - eapply Step_weaken; [|apply descriptionStep_Step_after, (Step_data _ _ _ _ H1)].
    intros c ->. apply orb_true_r.
Qed.

Lemma updateSteps_Step (st : St W) :
  Step isUpdateCall (Id (data st)) (updateSteps conn setTagsCodeCommit (data st)) st.
Proof.
  pose proof (branchAndDescription_Step st) as H1.
  unfold updateSteps. apply Step_andThen.
  - eapply Step_weaken; [|exact H1]. unfold isUpdateCall. by intros c ->.
  - eapply Step_weaken; [|apply tagsStep_Step_after, (Step_data _ _ _ _ H1)].
    unfold isUpdateCall. intros c ->. apply orb_true_r.
Qed.

Lemma Read_Handled (st : St W) : Handled isReadCall (Id (data st)) Read st.
Proof.
  unfold Handled.
  destruct (GetRepository conn (readInput (data st)) (remote st)) as [[out|err] w1] eqn:H.
  - rewrite (Read_got _ _ _ _ _ H). simpl.
    destruct (ListTagsForResource conn _ w1) as [[tl|e] w2]; simpl;
      rewrite <- app_assoc; eexists [_; _]; simpl; handled_parts; step_goal.
  - rewrite (Read_failed _ _ _ _ _ H). simpl.
    destruct (isAWSErr err _ _) eqn:Hn; simpl; eexists [_]; handled_parts;
      try reflexivity; try (repeat constructor; fail).
    + apply (Outcome_not_found _ [] (CallGetRepository (readInput (data st))) err);
        [constructor | exact Hn].
    + apply (Outcome_failed _ [] (CallGetRepository (readInput (data st))) err);
        [constructor | exact Hn].
Qed.

Lemma Update_Handled (st : St W) : Handled isUpdateOrReadCall (Id (data st)) Update st.
Proof.
  unfold Handled. rewrite Update_steps.
  pose proof (updateSteps_Step st) as H1.
  apply Handled_andThen.
  - eapply Step_weaken; [|exact H1]. unfold isUpdateOrReadCall. by intros c ->.
  - pose proof (Step_data _ _ _ _ H1) as Hd.
    destruct (Read_Handled (snd (updateSteps conn setTagsCodeCommit (data st) st)))
      as (tr & Hc & Hk & Ho).
    rewrite Hd in Ho. exists tr. handled_parts; auto.
    apply (ofKind_weaken isReadCall); [|exact Hk].
    unfold isUpdateOrReadCall. intros c ->. apply orb_true_r.
Qed.

Lemma Delete_Handled (st : St W) : Handled isDeleteCall (Id (data st)) Delete st.
Proof.
  unfold Handled. rewrite Delete_eq. simpl.
  destruct (DeleteRepository conn _ (remote st)) as [[o|e] w1]; simpl;
    eexists [_]; handled_parts; step_goal.
Qed.

Lemma Create_Handled (st : St W) :
  Handled anyCall (asString (Get "repository_name" (data st))) Create st.
Proof.
  unfold Handled.
  destruct (CreateRepository conn (createInput tagsFromMapCodeCommit (data st)) (remote st))
    as [[out|err] w1] eqn:H.
  - rewrite (Create_created _ _ _ _ _ _ _ H).
    set (s1 := mkSt _ _ _).
    destruct (Update_Handled s1) as (tr & Hc & Hk & Ho).
    exists ((CallCreateRepository (createInput tagsFromMapCodeCommit (data st)), None) :: tr).
    rewrite Hc. subst s1. simpl. rewrite <- app_assoc. handled_parts; [done| |].
    + apply Forall_forall. done.
    + apply (Outcome_app _ _ [_]); [repeat constructor | exact Ho].
  - rewrite (Create_failed _ _ _ _ _ _ _ H). simpl.
    eexists [_]. handled_parts; step_goal.
Qed.

End Steps.

(* ===================================================================== *)
(** ** Properties of the handlers *)
(* ===================================================================== *)

Section Properties.

Context {W : Type}.
Variable conn : CodeCommit W.
Variable tagsFromMapCodeCommit : gmap string string -> gmap string (option string).
Variable tagsToMapCodeCommit : gmap string (option string) -> gmap string string.
Variable setTagsCodeCommit : CodeCommit W -> ResourceData -> W -> option error * W.

Local Abbreviation Read := (resourceAwsCodeCommitRepositoryRead conn tagsToMapCodeCommit).
Local Abbreviation Update :=
  (resourceAwsCodeCommitRepositoryUpdate conn tagsToMapCodeCommit setTagsCodeCommit).
Local Abbreviation Create :=
  (resourceAwsCodeCommitRepositoryCreate conn tagsFromMapCodeCommit tagsToMapCodeCommit
     setTagsCodeCommit).
Local Abbreviation Delete := (resourceAwsCodeCommitRepositoryDelete conn).

(** The six attributes Read copies from the metadata. *)
Lemma attrs_copied md d :
  attrs (copied md d) !! "repository_id" = Some (VString (RepositoryMetadata.RepositoryId md)) /\
  attrs (copied md d) !! "arn" = Some (VString (RepositoryMetadata.Arn md)) /\
  attrs (copied md d) !! "clone_url_http" = Some (VString (RepositoryMetadata.CloneUrlHttp md)) /\
  attrs (copied md d) !! "clone_url_ssh" = Some (VString (RepositoryMetadata.CloneUrlSsh md)) /\
  attrs (copied md d) !! "description"
    = Some (VString (RepositoryMetadata.RepositoryDescription md)) /\
  attrs (copied md d) !! "repository_name"
    = Some (VString (RepositoryMetadata.RepositoryName md)).
Proof. unfold copied, withAttr. simpl. repeat split; by simplify_map_eq. Qed.

(** The resource data Read leaves when get-repository succeeded: the data
    after the copy and the look at the default branch, with the tags
    written when they could be listed. *)
Lemma Read_got_data (st : St W) (out : GetRepositoryOutput.t) (w1 : W) :
  GetRepository conn (readInput (data st)) (remote st) = (Ok out, w1) ->
  let md := GetRepositoryOutput.RepositoryMetadata out in
  forall k, k ≠ "tags" ->
    attrs (data (snd (Read st))) !! k = attrs (branched md (copied md (data st))) !! k.
Proof.
  intros H md k Hk. rewrite (Read_got _ _ _ _ _ H). simpl.
  destruct (ListTagsForResource conn _ w1) as [[tl|e] w2]; simpl; [|done].
  by rewrite lookup_insert_ne.
Qed.

(** C1: when get-repository fails in Read with the "repository does not
    exist" error code, Read sets the resource Id to the empty string and
    returns nil; when it fails with anything else, Read returns a non-nil
    error. *)
Theorem read_not_found_clears_identity (st : St W) (err : error) (w1 : W) :
  GetRepository conn (readInput (data st)) (remote st) = (Err err, w1) ->
  ((exists message, err = AwsErr ErrCodeRepositoryDoesNotExistException message) ->
   fst (Read st) = None /\ Id (data (snd (Read st))) = "") /\
  ((forall message, err <> AwsErr ErrCodeRepositoryDoesNotExistException message) ->
   fst (Read st) = Some (Errorf "Error reading CodeCommit Repository: " (Error err))).
Proof.
  intros H. rewrite (Read_failed _ _ _ _ _ H). simpl. split.
  - intros [message ->]. rewrite isAWSErr_code, String.eqb_refl. done.
  - intros Hne. destruct err as [code message|msg]; [|reflexivity].
    rewrite isAWSErr_code.
    destruct (String.eqb_spec code ErrCodeRepositoryDoesNotExistException) as [->|_];
      [|reflexivity].
    by destruct (Hne message).
Qed.

(** C9: when create-repository fails, Create returns the error and leaves
    the resource data as it was: neither the Id nor any attribute is set. *)
Theorem create_failure_leaves_data (st : St W) (err : error) (w1 : W) :
  CreateRepository conn (createInput tagsFromMapCodeCommit (data st)) (remote st)
    = (Err err, w1) ->
  fst (Create st) = Some (Errorf "Error creating CodeCommit Repository: " (Error err)) /\
  data (snd (Create st)) = data st.
Proof. intros H. by rewrite (Create_failed _ _ _ _ _ _ _ H). Qed.

(** C6: when get-repository succeeds in Read, the attributes
    repository_id, arn, clone_url_http, clone_url_ssh, description and
    repository_name of the resource data hold the corresponding fields of
    the metadata returned. *)
Theorem read_copies_metadata (st : St W) (out : GetRepositoryOutput.t) (w1 : W) :
  GetRepository conn (readInput (data st)) (remote st) = (Ok out, w1) ->
  let md := GetRepositoryOutput.RepositoryMetadata out in
  let d' := data (snd (Read st)) in
  attrs d' !! "repository_id" = Some (VString (RepositoryMetadata.RepositoryId md)) /\
  attrs d' !! "arn" = Some (VString (RepositoryMetadata.Arn md)) /\
  attrs d' !! "clone_url_http" = Some (VString (RepositoryMetadata.CloneUrlHttp md)) /\
  attrs d' !! "clone_url_ssh" = Some (VString (RepositoryMetadata.CloneUrlSsh md)) /\
  attrs d' !! "description" = Some (VString (RepositoryMetadata.RepositoryDescription md)) /\
  attrs d' !! "repository_name" = Some (VString (RepositoryMetadata.RepositoryName md)).
Proof.
  intros H md d'. subst d'.
  rewrite !(Read_got_data _ _ _ H) by done.
  rewrite !attrs_branched_ne by done.
  apply attrs_copied.
Qed.

(** When get-repository fails, Read leaves the attributes alone. *)
Lemma Read_failed_attrs (st : St W) (err : error) (w1 : W) :
  GetRepository conn (readInput (data st)) (remote st) = (Err err, w1) ->
  attrs (data (snd (Read st))) = attrs (data st).
Proof.
  intros H. rewrite (Read_failed _ _ _ _ _ H). simpl.
  by destruct (isAWSErr _ _ _).
Qed.

(** C8: a Read on data whose default_branch is not set, or that is
    answered with metadata without a default branch, leaves the
    default_branch attribute as it was, whatever default branch the remote
    repository reports; the six other attributes are copied all the same
    whenever get-repository succeeds. *)
Theorem read_keeps_default_branch (st : St W) :
  (snd (GetOk "default_branch" (data st)) = false \/
   exists out w1,
     GetRepository conn (readInput (data st)) (remote st) = (Ok out, w1) /\
     RepositoryMetadata.DefaultBranch (GetRepositoryOutput.RepositoryMetadata out) = None) ->
  attrs (data (snd (Read st))) !! "default_branch" = attrs (data st) !! "default_branch" /\
  forall out w1,
    GetRepository conn (readInput (data st)) (remote st) = (Ok out, w1) ->
    let md := GetRepositoryOutput.RepositoryMetadata out in
    let d' := data (snd (Read st)) in
    attrs d' !! "repository_id" = Some (VString (RepositoryMetadata.RepositoryId md)) /\
    attrs d' !! "arn" = Some (VString (RepositoryMetadata.Arn md)) /\
    attrs d' !! "clone_url_http" = Some (VString (RepositoryMetadata.CloneUrlHttp md)) /\
    attrs d' !! "clone_url_ssh" = Some (VString (RepositoryMetadata.CloneUrlSsh md)) /\
    attrs d' !! "description" = Some (VString (RepositoryMetadata.RepositoryDescription md)) /\
    attrs d' !! "repository_name" = Some (VString (RepositoryMetadata.RepositoryName md)).
Proof.
  intros Hunset. split.
  - destruct (GetRepository conn (readInput (data st)) (remote st)) as [[out|err] w1] eqn:H.
    + rewrite (Read_got_data _ _ _ H) by done.
      unfold branched. rewrite GetOk_default_branch_copied.
      destruct Hunset as [-> | (out' & w1' & Heq & Hnone)].
      * apply attrs_copied_default_branch.
      * injection Heq as <- <-. rewrite Hnone.
        destruct (snd _); apply attrs_copied_default_branch.
    + by rewrite (Read_failed_attrs _ _ _ H).
  - intros out w1 H md d'. subst d'.
    rewrite !(Read_got_data _ _ _ H) by done.
    rewrite !attrs_branched_ne by done. apply attrs_copied.
Qed.

(** The first call of Read is get-repository for the resource Id. *)
Lemma Read_first_call (st : St W) :
  exists o rest, newCalls Read st = (CallGetRepository (readInput (data st)), o) :: rest.
Proof.
  destruct (GetRepository conn (readInput (data st)) (remote st)) as [[out|err] w1] eqn:H.
  - pose proof (Read_got conn tagsToMapCodeCommit _ _ _ H) as E. simpl in E.
    destruct (ListTagsForResource conn _ w1) as [[tl|e] w2];
      eexists None, [_]; apply newCalls_app; rewrite E; simpl;
      rewrite <- app_assoc; reflexivity.
  - exists (Some err), []. apply newCalls_app. rewrite (Read_failed _ _ _ _ _ H). simpl.
    by destruct (isAWSErr _ _ _).
Qed.

(** Read keeps the resource Id, or clears it and returns nil. *)
Lemma Read_Id (st : St W) :
  Id (data (snd (Read st))) = Id (data st) \/
  (Id (data (snd (Read st))) = "" /\ fst (Read st) = None).
Proof.
  destruct (GetRepository conn (readInput (data st)) (remote st)) as [[out|err] w1] eqn:H.
  - left. rewrite (Read_got _ _ _ _ _ H). simpl.
    destruct (ListTagsForResource conn _ w1) as [[tl|e] w2]; simpl;
      by rewrite Id_branched.
  - rewrite (Read_failed _ _ _ _ _ H). simpl.
    destruct (isAWSErr _ _ _); simpl; auto.
Qed.

Lemma Update_Id (st : St W) :
  Id (data (snd (Update st))) = Id (data st) \/
  (Id (data (snd (Update st))) = "" /\ fst (Update st) = None).
Proof.
  rewrite Update_steps, snd_andThen, fst_andThen.
  pose proof (Step_data _ _ _ _ (updateSteps_Step conn setTagsCodeCommit st)) as Hd.
  destruct (fst (updateSteps conn setTagsCodeCommit (data st) st)).
  - left. by rewrite Hd.
  - destruct (Read_Id (snd (updateSteps conn setTagsCodeCommit (data st) st))) as [E|E].
    + left. by rewrite E, Hd.
    + by right.
Qed.

(** C4: when create-repository succeeds, Create ends by calling Update on
    the data it has filled in; an Update whose three steps return no error
    ends by calling Read, and one whose steps return an error returns that
    error; so a Create that gets that far returns what Read returns. *)
Theorem create_update_read_chain
  (st : St W) (out : CreateRepositoryOutput.t) (w1 : W) :
  CreateRepository conn (createInput tagsFromMapCodeCommit (data st)) (remote st)
    = (Ok out, w1) ->
  let st1 :=
    mkSt (created (CreateRepositoryOutput.RepositoryMetadata out) (data st)) w1
         (calls st ++ [(CallCreateRepository (createInput tagsFromMapCodeCommit (data st)), None)])
  in
  Create st = Update st1 /\
  (forall s,
     let steps := updateSteps conn setTagsCodeCommit (data s) s in
     match fst steps with
     | None => Update s = Read (snd steps)
     | Some err => Update s = (Some err, snd steps)
     end) /\
  (fst (updateSteps conn setTagsCodeCommit (data st1) st1) = None ->
   Create st = Read (snd (updateSteps conn setTagsCodeCommit (data st1) st1))).
Proof.
  intros H st1.
  assert (Hsteps : forall s,
    let steps := updateSteps conn setTagsCodeCommit (data s) s in
    match fst steps with
    | None => Update s = Read (snd steps)
    | Some err => Update s = (Some err, snd steps)
    end).
  { intros s. simpl. rewrite Update_steps, andThen_eq.
    by destruct (fst (updateSteps conn setTagsCodeCommit (data s) s)). }
  split; [apply (Create_created _ _ _ _ _ _ _ H)|]. split; [exact Hsteps|].
  intros Hnone. rewrite (Create_created _ _ _ _ _ _ _ H). fold st1.
  specialize (Hsteps st1). cbv zeta in Hsteps. by rewrite Hnone in Hsteps.
Qed.

Lemma errorPrefix_not_empty (c : Call) (id : string) : errorPrefix c id <> "".
Proof. by destruct c. Qed.

(** C3: in every run of Create, Update, Read and Delete, a remote call
    that fails (the not-found answer to get-repository apart) is the last
    call the handler makes, and the handler returns a non-nil error whose
    message is a descriptive prefix followed by the message of the error
    of that call. *)
Theorem remote_failures_are_returned_wrapped (st : St W) (i : nat) (c : Call) (e : error) :
  notFoundCase c e = false ->
  let wrapped id := Some (Errorf (errorPrefix c id) (Error e)) in
  (newCalls Create st !! i = Some (c, Some e) ->
   fst (Create st) = wrapped (asString (Get "repository_name" (data st))) /\
   length (newCalls Create st) = S i) /\
  (newCalls Update st !! i = Some (c, Some e) ->
   fst (Update st) = wrapped (Id (data st)) /\ length (newCalls Update st) = S i) /\
  (newCalls Read st !! i = Some (c, Some e) ->
   fst (Read st) = wrapped (Id (data st)) /\ length (newCalls Read st) = S i) /\
  (newCalls Delete st !! i = Some (c, Some e) ->
   fst (Delete st) = wrapped (Id (data st)) /\ length (newCalls Delete st) = S i) /\
  (forall id, errorPrefix c id <> "" /\
              Error (Errorf (errorPrefix c id) (Error e)) = errorPrefix c id ++ Error e).
Proof.
  intros Hn wrapped. subst wrapped. simpl.
  pose proof (Handled_newCalls _ _ _ _
                (Create_Handled conn tagsFromMapCodeCommit tagsToMapCodeCommit
                   setTagsCodeCommit st)) as [_ HC].
  pose proof (Handled_newCalls _ _ _ _
                (Update_Handled conn tagsToMapCodeCommit setTagsCodeCommit st)) as [_ HU].
  pose proof (Handled_newCalls _ _ _ _ (Read_Handled conn tagsToMapCodeCommit st)) as [_ HR].
  pose proof (Handled_newCalls _ _ _ _ (Delete_Handled conn st)) as [_ HD].
  split; [intros Hi; exact (Outcome_surfaced _ _ _ _ _ _ HC Hi Hn)|].
  split; [intros Hi; exact (Outcome_surfaced _ _ _ _ _ _ HU Hi Hn)|].
  split; [intros Hi; exact (Outcome_surfaced _ _ _ _ _ _ HR Hi Hn)|].
  split; [intros Hi; exact (Outcome_surfaced _ _ _ _ _ _ HD Hi Hn)|].
  intros id. split; [apply errorPrefix_not_empty | reflexivity].
Qed.

(** *** The calls of Update, step by step *)

Lemma newCalls_ret {A} (a : A) (s : St W) : newCalls (ret a) s = [].
Proof. unfold newCalls. simpl. apply drop_all. Qed.

Lemma tagsStep_calls (d : ResourceData) (s : St W) :
  newCalls (tagsStep conn setTagsCodeCommit d) s =
    if IsNewResource d then []
    else [(CallSetTags (data s), fst (setTagsCodeCommit conn (data s) (remote s)))].
Proof.
  unfold tagsStep. destruct (IsNewResource d); simpl; [apply newCalls_ret|].
  apply newCalls_app. unfold_m.
  by destruct (setTagsCodeCommit conn (data s) (remote s)) as [[e|] w1].
Qed.

Lemma UpdateDefaultBranch_calls (st : St W) :
  newCalls (resourceAwsCodeCommitUpdateDefaultBranch conn) st =
    let d := data st in
    let (r, w1) := ListBranches conn (listBranchesInput d) (remote st) in
    (CallListBranches (listBranchesInput d), errorOf r) ::
    match r with
    | Err _ => []
    | Ok out =>
        match ListBranchesOutput.Branches out with
        | [] => []
        | _ :: _ =>
            [(CallUpdateDefaultBranch (updateDefaultBranchInput d),
              errorOf (fst (UpdateDefaultBranch conn (updateDefaultBranchInput d) w1)))]
        end
    end.
Proof.
  apply newCalls_app. rewrite UpdateDefaultBranch_eq. simpl.
  destruct (ListBranches conn _ (remote st)) as [[o|e] w1]; simpl; [|done].
  destruct (ListBranchesOutput.Branches o) as [|b bs]; simpl; [done|].
  destruct (UpdateDefaultBranch conn _ w1) as [r' w2]. simpl.
  by rewrite <- app_assoc.
Qed.

(** The log of Update: the calls of the default-branch step, those of the
    description step, the call of the tag helper when the two steps
    returned no error, and the calls of Read. *)
Lemma Update_calls (st : St W) :
  let d := data st in
  let B := defaultBranchStep conn d in
  let BD := andThen B (descriptionStep conn d) in
  exists trD trR,
    newCalls BD st = (newCalls B st ++ trD)%list /\
    newCalls Update st =
      (newCalls BD st ++
       match fst (BD st) with
       | Some _ => []
       | None => newCalls (tagsStep conn setTagsCodeCommit d) (snd (BD st))
       end ++ trR)%list /\
    ofKind isDescriptionCall trD /\ ofKind isReadCall trR.
Proof.
  intros d B BD.
  pose proof (defaultBranchStep_Step conn st) as HB. fold d B in HB.
  pose proof (descriptionStep_Step_after conn d _ (Step_data _ _ _ _ HB)) as HD.
  pose proof (branchAndDescription_Step conn st) as HBD. fold d B BD in HBD.
  pose proof (tagsStep_Step_after conn setTagsCodeCommit d _ (Step_data _ _ _ _ HBD)) as HT.
  pose proof (updateSteps_Step conn setTagsCodeCommit st) as HS. fold d in HS.
  pose proof (Read_Handled conn tagsToMapCodeCommit
                (snd (updateSteps conn setTagsCodeCommit d st))) as HR.
  exists (match fst (B st) with
          | Some _ => []
          | None => newCalls (descriptionStep conn d) (snd (B st))
          end),
         (match fst (updateSteps conn setTagsCodeCommit d st) with
          | Some _ => []
          | None => newCalls Read (snd (updateSteps conn setTagsCodeCommit d st))
          end).
  split; [|split; [|split]].
  - apply newCalls_andThen; eauto using Step_Extends.
  - transitivity (newCalls (andThen (updateSteps conn setTagsCodeCommit d) Read) st).
    { unfold newCalls. by rewrite Update_steps. }
    rewrite newCalls_andThen by eauto using Step_Extends, Handled_Extends.
    unfold updateSteps at 1. fold B BD.
    rewrite newCalls_andThen by eauto using Step_Extends.
    by rewrite <- app_assoc.
  - destruct (fst (B st)); [constructor|]. apply (Step_newCalls _ _ _ _ HD).
  - destruct (fst (updateSteps conn setTagsCodeCommit d st)); [constructor|].
    apply (Handled_newCalls _ _ _ _ HR).
Qed.

(** Past the default-branch step Update makes no branch call. *)
Lemma Update_calls_after_branch (st : St W) :
  exists rest,
    newCalls Update st = (newCalls (defaultBranchStep conn (data st)) st ++ rest)%list /\
    ofKind (fun c => negb (isBranchCall c)) rest.
Proof.
  destruct (Update_calls st) as (trD & trR & HBD & HU & HkD & HkR).
  cbv zeta in *. rewrite HBD, <- app_assoc in HU.
  eexists. split; [exact HU|].
  apply ofKind_app; [|apply ofKind_app].
  - apply (ofKind_weaken isDescriptionCall); [|done]. by intros [].
  - destruct (fst _); [constructor|]. rewrite tagsStep_calls.
    destruct (IsNewResource _); repeat constructor.
  - apply (ofKind_weaken isReadCall); [|done]. by intros [].
Qed.

(** C2: an Update on data whose default_branch is set and has changed
    first lists the branches of the repository.  When the list comes back,
    update-default-branch is called if and only if the list is not empty,
    as the second call; on an empty list the default-branch step returns
    nil with that single call, and Update goes on with its description and
    tags steps and Read. *)
Theorem default_branch_update_needs_a_branch (st : St W) :
  snd (GetOk "default_branch" (data st)) = true ->
  HasChange "default_branch" (data st) = true ->
  let d := data st in
  (exists o rest, newCalls Update st = (CallListBranches (listBranchesInput d), o) :: rest) /\
  forall out w1,
    ListBranches conn (listBranchesInput d) (remote st) = (Ok out, w1) ->
    let listed :=
      mkSt d w1 (calls st ++ [(CallListBranches (listBranchesInput d), None)]) in
    ((exists c o, (c, o) ∈ newCalls Update st /\ isUpdateDefaultBranch c = true) <->
     ListBranchesOutput.Branches out <> []) /\
    (ListBranchesOutput.Branches out <> [] ->
     exists o,
       newCalls Update st !! 1%nat
         = Some (CallUpdateDefaultBranch (updateDefaultBranchInput d), o)) /\
    (ListBranchesOutput.Branches out = [] ->
     resourceAwsCodeCommitUpdateDefaultBranch conn st = (None, listed) /\
     Update st =
       andThen (descriptionStep conn d)
         (andThen (tagsStep conn setTagsCodeCommit d) Read) listed).
Proof.
  intros Hset Hchanged d.
  destruct (Update_calls_after_branch st) as (rest & HU & Hrest). fold d in HU.
  assert (HB : defaultBranchStep conn d = resourceAwsCodeCommitUpdateDefaultBranch conn).
  { unfold defaultBranchStep, d. by rewrite Hset, Hchanged. }
  rewrite HB, UpdateDefaultBranch_calls in HU. fold d in HU. cbv zeta in HU.
  split.
  { destruct (ListBranches conn (listBranchesInput d) (remote st)) as [r w1].
    rewrite HU. simpl. eauto. }
  intros out w1 HL listed. rewrite HL in HU. simpl in HU.
  split; [|split].
  - split.
    + intros (c & o & Hin & Hc). rewrite HU in Hin.
      destruct (ListBranchesOutput.Branches out) as [|b bs]; [|done].
      exfalso. simpl in Hin. apply elem_of_cons in Hin as [Heq|Hin].
      * injection Heq as -> _. discriminate.
      * assert (Hdisj : forall c, negb (isBranchCall c) = true ->
                                  isUpdateDefaultBranch c = false) by (by intros []).
        pose proof (ofKind_disjoint _ isUpdateDefaultBranch _ _ _ Hdisj Hrest Hin).
        congruence.
    + intros Hne. destruct (ListBranchesOutput.Branches out) as [|b bs]; [done|].
      eexists _, _. split.
      * rewrite HU. simpl. apply elem_of_cons. right. apply elem_of_cons. by left.
      * reflexivity.
  - intros Hne. destruct (ListBranchesOutput.Branches out) as [|b bs]; [done|].
    rewrite HU. simpl. eauto.
  - intros Hempty.
    assert (Hstep : resourceAwsCodeCommitUpdateDefaultBranch conn st = (None, listed)).
    { rewrite UpdateDefaultBranch_eq. fold d. cbv zeta. by rewrite HL, Hempty. }
    split; [exact Hstep|].
    rewrite Update_steps. unfold updateSteps. fold d.
    rewrite !andThen_assoc, andThen_eq, HB, Hstep. reflexivity.
Qed.

(** An Update on a new resource never calls the tag helper. *)
Lemma Update_new_no_tags (st : St W) :
  IsNewResource (data st) = true ->
  forall c o, (c, o) ∈ newCalls Update st -> isSetTags c = false.
Proof.
  intros Hnew c o Hin.
  destruct (Update_calls st) as (trD & trR & _ & HU & _ & HkR). cbv zeta in HU.
  pose proof (Step_newCalls _ _ _ _ (branchAndDescription_Step conn st)) as [HkBD _].
  rewrite HU in Hin.
  replace (match fst _ with Some _ => [] | None => _ end) with (@nil Event) in Hin
    by (destruct (fst _); [done|]; by rewrite tagsStep_calls, Hnew).
  simpl in Hin. apply elem_of_app in Hin as [Hin|Hin].
  - apply (ofKind_disjoint (fun c => isBranchCall c || isDescriptionCall c) isSetTags
             _ _ _ ltac:(by intros []) HkBD Hin).
  - apply (ofKind_disjoint isReadCall isSetTags _ _ _ ltac:(by intros []) HkR Hin).
Qed.

(** C10, as amended: an Update on a new resource never calls the tag
    helper, and Create sends the tags in its create-repository request.
    An Update on a resource that is not new, whose default-branch and
    description steps returned no error, calls the tag helper once, after
    all the calls of those two steps and before the calls of Read; when
    the helper fails, it is the last call and Update returns its error
    behind the prefix naming the resource. *)
Theorem tags_helper_after_the_updates (st : St W) :
  let d := data st in
  let BD := andThen (defaultBranchStep conn d) (descriptionStep conn d) in
  (IsNewResource d = true ->
   forall c o, (c, o) ∈ newCalls Update st -> isSetTags c = false) /\
  (IsNewResource d = false -> fst (BD st) = None ->
   exists pre o post,
     newCalls Update st = (pre ++ (CallSetTags d, o) :: post)%list /\
     newCalls BD st = pre /\
     ofKind (fun c => isBranchCall c || isDescriptionCall c) pre /\
     ofKind isReadCall post /\
     forall err, o = Some err ->
       post = [] /\
       fst (Update st) =
         Some (Errorf ("error updating CodeCommit Repository tags for " ++ Id d ++ ": ")
                      (Error err))) /\
  (exists o rest,
     newCalls Create st =
       (CallCreateRepository
          {| CreateRepositoryInput.RepositoryName := Some (asString (Get "repository_name" d));
             CreateRepositoryInput.RepositoryDescription := Some (asString (Get "description" d));
             CreateRepositoryInput.Tags := tagsFromMapCodeCommit (asMap (Get "tags" d)) |}, o)
         :: rest /\
     (IsNewResource d = true -> forall c o', (c, o') ∈ rest -> isSetTags c = false)).
Proof.
  intros d BD. split; [apply Update_new_no_tags|]. split.
  - intros Hold Hnone.
    destruct (Update_calls st) as (trD & trR & _ & HU & _ & HkR). fold d BD in HU.
    cbv zeta in HU.
    pose proof (branchAndDescription_Step conn st) as HBD. fold d BD in HBD.
    pose proof (Step_newCalls _ _ _ _ HBD) as [HkBD _].
    rewrite Hnone, tagsStep_calls, Hold, (Step_data _ _ _ _ HBD) in HU. fold d in HU.
    eexists _, _, trR. split; [exact HU|]. split; [done|]. split; [done|]. split; [done|].
    intros err Ho.
    pose proof (Handled_newCalls _ _ _ _
                  (Update_Handled conn tagsToMapCodeCommit setTagsCodeCommit st)) as [_ HO].
    assert (Hi : newCalls Update st !! length (newCalls BD st)
                 = Some (CallSetTags d, Some err)).
    { rewrite HU, <- Ho. apply list_lookup_middle. done. }
    destruct (Outcome_surfaced _ _ _ _ _ _ HO Hi eq_refl) as [Hr Hlen].
    split; [|exact Hr].
    rewrite HU, length_app in Hlen. simpl in Hlen.
    apply nil_length_inv. unfold Event in *. lia.
  - destruct (CreateRepository conn (createInput tagsFromMapCodeCommit d) (remote st))
      as [[out|err] w1] eqn:H.
    + set (st1 := mkSt (created (CreateRepositoryOutput.RepositoryMetadata out) d) w1
                    (calls st ++ [(CallCreateRepository (createInput tagsFromMapCodeCommit d),
                                   None)])).
      exists None, (newCalls Update st1). split.
      * apply newCalls_app. rewrite (Create_created _ _ _ _ _ _ _ H). fold d st1.
        rewrite (Extends_newCalls _ _
                   (Handled_Extends _ _ _ _
                      (Update_Handled conn tagsToMapCodeCommit setTagsCodeCommit st1))).
        simpl. by rewrite <- app_assoc.
      * intros Hnew. by apply Update_new_no_tags.
    + exists (Some err), []. split.
      * apply newCalls_app. by rewrite (Create_failed _ _ _ _ _ _ _ H).
      * intros _ c o' Hin. by apply elem_of_nil in Hin.
Qed.

End Properties.

(* ===================================================================== *)
(** ** The schema *)
(* ===================================================================== *)

Lemma resourceSchema_lookup (k : string) (s : Schema) :
  resourceSchema !! k = Some s <-> (k, s) ∈ resourceSchemaEntries.
Proof.
  unfold resourceSchema. split.
  - apply elem_of_list_to_map_2.
  - apply elem_of_list_to_map_1. simpl.
    apply (bool_decide_unpack _). by vm_compute.
Qed.

Lemma StringLenBetween_accepts (min max : nat) (v k : string) :
  accepts (StringLenBetween min max) (VString (Some v)) k = true <->
  (min <= String.length v <= max)%nat.
Proof.
  unfold accepts, StringLenBetween.
  destruct (String.length v <? min)%nat eqn:E1; simpl.
  - apply Nat.ltb_lt in E1. split; [discriminate | lia].
  - apply Nat.ltb_ge in E1.
    destruct (max <? String.length v)%nat eqn:E2; simpl.
    + apply Nat.ltb_lt in E2. split; [discriminate | lia].
    + apply Nat.ltb_ge in E2. split; [lia | done].
Qed.

(** C7, as amended: the schema consists exactly of the attributes
    repository_name, description, arn, repository_id, clone_url_http,
    clone_url_ssh, default_branch and tags; the computed ones are exactly
    arn, repository_id, clone_url_http and clone_url_ssh, and they are
    neither required nor optional; the validation of description accepts a
    string if and only if its length is at most 1000. *)
Theorem schema_attributes :
  dom resourceSchema =
    ({[ "repository_name"; "description"; "arn"; "repository_id"; "clone_url_http";
        "clone_url_ssh"; "default_branch"; "tags" ]} : gset string) /\
  (forall k,
     (exists s, resourceSchema !! k = Some s /\ Computed s = true) <->
     k ∈ ["arn"; "repository_id"; "clone_url_http"; "clone_url_ssh"]) /\
  (forall k s,
     resourceSchema !! k = Some s -> Computed s = true ->
     Required s = false /\ Optional s = false) /\
  (exists f,
     ValidateFunc <$> resourceSchema !! "description" = Some (Some f) /\
     forall v, accepts f (VString (Some v)) "description" = true <->
               (String.length v <= 1000)%nat).
Proof.
  split; [|split; [|split]].
  - unfold resourceSchema. rewrite dom_list_to_map_L. simpl. set_solver.
  - intros k. split.
    + intros (s & Hs & Hc). apply resourceSchema_lookup in Hs.
      unfold resourceSchemaEntries in Hs.
      repeat (apply elem_of_cons in Hs as [Hs|Hs];
              [apply pair_equal_spec in Hs as [-> ->]; first [discriminate Hc | set_solver]|]).
      by apply elem_of_nil in Hs.
    + intros Hk.
      repeat (apply elem_of_cons in Hk as [->|Hk]; [eexists; split; reflexivity|]).
      by apply elem_of_nil in Hk.
  - intros k s Hs Hc. apply resourceSchema_lookup in Hs.
    unfold resourceSchemaEntries in Hs.
    repeat (apply elem_of_cons in Hs as [Hs|Hs];
            [apply pair_equal_spec in Hs as [-> ->]; first [discriminate Hc | done]|]).
    by apply elem_of_nil in Hs.
  - exists (StringLenBetween 0 1000). split; [reflexivity|].
    intros v. rewrite StringLenBetween_accepts. lia.
Qed.

(** The schema has no attribute called "name": its set of attributes is
    not the one with "name" in the place of "repository_name". *)
Lemma schema_has_no_name_attribute :
  dom resourceSchema <>
    ({[ "name"; "description"; "arn"; "repository_id"; "clone_url_http";
        "clone_url_ssh"; "default_branch"; "tags" ]} : gset string).
Proof.
  intros H.
  assert (Hin : "name" ∈ dom resourceSchema) by (rewrite H; set_solver).
  apply elem_of_dom in Hin as [s Hs]. vm_compute in Hs. discriminate.
Qed.

(* ===================================================================== *)
(** ** Concrete runs *)
(* ===================================================================== *)

(** Read of a repository that is gone clears the Id and returns nil; Read
    of a repository that cannot be read returns the error. *)
Lemma read_not_found_clears_identity_witness :
  (fst (Demo.Read Demo.missing (Demo.start Demo.existing)) = None /\
   Id (data (snd (Demo.Read Demo.missing (Demo.start Demo.existing)))) = "") /\
  fst (Demo.Read Demo.unreadable (Demo.start Demo.existing))
    = Some (PlainErr "Error reading CodeCommit Repository: ThrottlingException: Rate exceeded").
Proof.
  split.
  - apply (read_not_found_clears_identity (Demo.service Demo.missing) Demo.tagsToMap
             (Demo.start Demo.existing) Demo.notFound tt eq_refl).
    by exists "demo does not exist".
  - apply (read_not_found_clears_identity (Demo.service Demo.unreadable) Demo.tagsToMap
             (Demo.start Demo.existing) Demo.throttled tt eq_refl).
    intros message. discriminate.
Defined.

(** A Create that is refused leaves the planned data as it is. *)
Lemma create_failure_leaves_data_witness :
  fst (Demo.Create Demo.taken (Demo.start Demo.planned))
    = Some (PlainErr ("Error creating CodeCommit Repository: "
                        ++ "RepositoryNameExistsException: demo already exists")) /\
  data (snd (Demo.Create Demo.taken (Demo.start Demo.planned))) = Demo.planned.
Proof.
  exact (create_failure_leaves_data (Demo.service Demo.taken) Demo.tagsFromMap Demo.tagsToMap
           Demo.setTags (Demo.start Demo.planned) _ tt eq_refl).
Defined.

(** Read copies the metadata of the demo repository. *)
Lemma read_copies_metadata_witness :
  let d' := data (snd (Demo.Read Demo.healthy (Demo.start Demo.existing))) in
  attrs d' !! "repository_id" = Some (VString (Some "f7579e13-b83e-4027-aaef-650c0EXAMPLE")) /\
  attrs d' !! "arn" = Some (VString (Some "arn:aws:codecommit:us-east-1:111122223333:demo")) /\
  attrs d' !! "clone_url_http"
    = Some (VString (Some "https://git-codecommit.us-east-1.amazonaws.com/v1/repos/demo")) /\
  attrs d' !! "clone_url_ssh"
    = Some (VString (Some "ssh://git-codecommit.us-east-1.amazonaws.com/v1/repos/demo")) /\
  attrs d' !! "description" = Some (VString (Some "a demonstration")) /\
  attrs d' !! "repository_name" = Some (VString (Some "demo")).
Proof.
  exact (read_copies_metadata (Demo.service Demo.healthy) Demo.tagsToMap
           (Demo.start Demo.existing) _ tt eq_refl).
Defined.

(** Read on data without a default branch does not record the remote one. *)
Lemma read_keeps_default_branch_witness :
  attrs (data (snd (Demo.Read Demo.healthy (Demo.start Demo.plain)))) !! "default_branch"
    = attrs Demo.plain !! "default_branch".
Proof.
  apply (read_keeps_default_branch (Demo.service Demo.healthy) Demo.tagsToMap
           (Demo.start Demo.plain)).
  left. reflexivity.
Defined.

(** Create of the demo repository returns what the final Read returns. *)
Lemma create_update_read_chain_witness :
  exists st2, Demo.Create Demo.healthy (Demo.start Demo.planned) = Demo.Read Demo.healthy st2.
Proof.
  eexists.
  apply (create_update_read_chain (Demo.service Demo.healthy) Demo.tagsFromMap
           Demo.tagsToMap Demo.setTags (Demo.start Demo.planned) _ tt eq_refl).
  vm_compute. reflexivity.
Defined.

(** An Update whose description call is throttled: the third call fails,
    is the last one, and its error is returned wrapped. *)
Lemma remote_failures_are_returned_wrapped_witness :
  fst (Demo.Update Demo.frozen (Demo.start Demo.existing))
    = Some (PlainErr ("Error Updating Repository Description for CodeCommit Repository: "
                        ++ "ThrottlingException: Rate exceeded")) /\
  length (newCalls (Demo.Update Demo.frozen) (Demo.start Demo.existing)) = 3%nat.
Proof.
  apply (remote_failures_are_returned_wrapped (Demo.service Demo.frozen) Demo.tagsFromMap
           Demo.tagsToMap Demo.setTags (Demo.start Demo.existing) 2
           (CallUpdateRepositoryDescription
              {| UpdateRepositoryDescriptionInput.RepositoryName := Some "demo";
                 UpdateRepositoryDescriptionInput.RepositoryDescription :=
                   Some "a demonstration" |})
           Demo.throttled eq_refl).
  vm_compute. reflexivity.
Defined.

(** With one branch the default branch is updated as the second call;
    with none the step returns nil after the listing. *)
Lemma default_branch_update_needs_a_branch_witness :
  (exists o,
     newCalls (Demo.Update Demo.healthy) (Demo.start Demo.existing) !! 1%nat
       = Some (CallUpdateDefaultBranch
                 {| UpdateDefaultBranchInput.RepositoryName := Some "demo";
                    UpdateDefaultBranchInput.DefaultBranchName := Some "main" |}, o)) /\
  fst (resourceAwsCodeCommitUpdateDefaultBranch (Demo.service Demo.empty)
         (Demo.start Demo.existing)) = None.
Proof.
  split.
  - destruct (default_branch_update_needs_a_branch (Demo.service Demo.healthy) Demo.tagsToMap
                Demo.setTags (Demo.start Demo.existing) eq_refl eq_refl) as [_ H].
    destruct (H _ tt eq_refl) as (_ & Hsome & _).
    apply Hsome. discriminate.
  - destruct (default_branch_update_needs_a_branch (Demo.service Demo.empty) Demo.tagsToMap
                Demo.setTags (Demo.start Demo.existing) eq_refl eq_refl) as [_ H].
    destruct (H _ tt eq_refl) as (_ & _ & Hempty).
    destruct (Hempty eq_refl) as [-> _]. reflexivity.
Defined.

(** An Update of the existing demo repository calls the tag helper between
    the calls of its first two steps and those of Read. *)
Lemma tags_helper_after_the_updates_witness :
  exists pre o post,
    newCalls (Demo.Update Demo.healthy) (Demo.start Demo.existing)
      = (pre ++ (CallSetTags Demo.existing, o) :: post)%list /\
    ofKind (fun c => isBranchCall c || isDescriptionCall c) pre /\
    ofKind isReadCall post.
Proof.
  destruct (tags_helper_after_the_updates (Demo.service Demo.healthy) Demo.tagsFromMap
              Demo.tagsToMap Demo.setTags (Demo.start Demo.existing)) as (_ & H & _).
  destruct (H eq_refl ltac:(vm_compute; reflexivity))
    as (pre & o & post & HU & _ & Hpre & Hpost & _).
  by exists pre, o, post.
Defined.

(** The log of an Update of the existing demo repository whose description
    call is throttled. *)
Lemma frozen_update_calls :
  newCalls (Demo.Update Demo.frozen) (Demo.start Demo.existing) =
    [ (CallListBranches {| ListBranchesInput.RepositoryName := Some "demo" |}, None);
      (CallUpdateDefaultBranch
         {| UpdateDefaultBranchInput.RepositoryName := Some "demo";
            UpdateDefaultBranchInput.DefaultBranchName := Some "main" |}, None);
      (CallUpdateRepositoryDescription
         {| UpdateRepositoryDescriptionInput.RepositoryName := Some "demo";
            UpdateRepositoryDescriptionInput.RepositoryDescription := Some "a demonstration" |},
       Some Demo.throttled) ].
Proof. vm_compute. reflexivity. Qed.

(** An Update on a resource that is not new does not always call the tag
    helper: when the description call fails, Update returns before it. *)
Lemma tags_helper_skipped_after_a_failure :
  IsNewResource (data (Demo.start Demo.existing)) = false /\
  ~ exists d o,
      (CallSetTags d, o) ∈ newCalls (Demo.Update Demo.frozen) (Demo.start Demo.existing).
Proof.
  split; [reflexivity|]. intros (d & o & Hin). rewrite frozen_update_calls in Hin.
  repeat (apply elem_of_cons in Hin as [Hin|Hin]; [discriminate|]).
  by apply elem_of_nil in Hin.
Qed.

(** The schema at work: description is the validated attribute and arn a
    computed one. *)
Lemma schema_attributes_witness :
  "arn" ∈ dom resourceSchema /\
  (exists s, resourceSchema !! "arn" = Some s /\ Computed s = true).
Proof.
  destruct schema_attributes as (Hdom & Hcomputed & _).
  split.
  - rewrite Hdom. set_solver.
  - apply Hcomputed. apply elem_of_cons. by left.
Defined.

(* ===================================================================== *)
(** ** Further properties of the handlers *)
(* ===================================================================== *)

Lemma Outcome_error_last id err tr :
  Outcome id (Some err) tr ->
  exists pre c e, tr = (pre ++ [(c, Some e)])%list /\ Forall succeeded pre /\
                  notFoundCase c e = false /\ err = Errorf (errorPrefix c id) (Error e).
Proof. intros H. inversion H; subst. eauto 10. Qed.

Section Further.

Context {W : Type}.
Variable conn : CodeCommit W.
Variable tagsFromMapCodeCommit : gmap string string -> gmap string (option string).
Variable tagsToMapCodeCommit : gmap string (option string) -> gmap string string.
Variable setTagsCodeCommit : CodeCommit W -> ResourceData -> W -> option error * W.

Local Abbreviation Read := (resourceAwsCodeCommitRepositoryRead conn tagsToMapCodeCommit).
Local Abbreviation Update :=
  (resourceAwsCodeCommitRepositoryUpdate conn tagsToMapCodeCommit setTagsCodeCommit).
Local Abbreviation Create :=
  (resourceAwsCodeCommitRepositoryCreate conn tagsFromMapCodeCommit tagsToMapCodeCommit
     setTagsCodeCommit).
Local Abbreviation Delete := (resourceAwsCodeCommitRepositoryDelete conn).
Local Abbreviation Steps := (updateSteps conn setTagsCodeCommit).

(** *** The exact logs of the steps *)

Lemma UpdateDescription_calls (st : St W) :
  newCalls (resourceAwsCodeCommitUpdateDescription conn) st =
    let input :=
      {| UpdateRepositoryDescriptionInput.RepositoryName := Some (Id (data st));
         UpdateRepositoryDescriptionInput.RepositoryDescription :=
           Some (asString (Get "description" (data st))) |} in
    [(CallUpdateRepositoryDescription input,
      errorOf (fst (UpdateRepositoryDescription conn input (remote st))))].
Proof.
  apply newCalls_app. unfold resourceAwsCodeCommitUpdateDescription. unfold_m.
  by destruct (UpdateRepositoryDescription conn _ (remote st)) as [[o|e] w1].
Qed.

Lemma Read_calls (st : St W) :
  newCalls Read st =
    let (r, w1) := GetRepository conn (readInput (data st)) (remote st) in
    (CallGetRepository (readInput (data st)), errorOf r) ::
    match r with
    | Err _ => []
    | Ok out =>
        let input :=
          {| ListTagsForResourceInput.ResourceArn :=
               RepositoryMetadata.Arn (GetRepositoryOutput.RepositoryMetadata out) |} in
        [(CallListTagsForResource input, errorOf (fst (ListTagsForResource conn input w1)))]
    end.
Proof.
  apply newCalls_app.
  destruct (GetRepository conn (readInput (data st)) (remote st)) as [[out|err] w1] eqn:H.
  - rewrite (Read_got _ _ _ _ _ H). simpl.
    destruct (ListTagsForResource conn _ w1) as [[tl|e] w2]; simpl; by rewrite <- app_assoc.
  - rewrite (Read_failed _ _ _ _ _ H). simpl. by destruct (isAWSErr _ _ _).
Qed.

(** Update as its four parts in a row, and its log accordingly. *)
Lemma Update_parts (st : St W) :
  let d := data st in
  Update st =
    andThen (defaultBranchStep conn d)
      (andThen (descriptionStep conn d)
         (andThen (tagsStep conn setTagsCodeCommit d) Read)) st.
Proof. intros d. rewrite Update_steps. unfold updateSteps. by rewrite !andThen_assoc. Qed.

Lemma Update_calls_exact (st : St W) :
  let d := data st in
  let B := defaultBranchStep conn d in
  let D := descriptionStep conn d in
  let T := tagsStep conn setTagsCodeCommit d in
  newCalls Update st =
    (newCalls B st ++
     match fst (B st) with
     | Some _ => []
     | None =>
         let s1 := snd (B st) in
         newCalls D s1 ++
         match fst (D s1) with
         | Some _ => []
         | None =>
             let s2 := snd (D s1) in
             newCalls T s2 ++
             match fst (T s2) with
             | Some _ => []
             | None => newCalls Read (snd (T s2))
             end
         end
     end)%list.
Proof.
  intros d B D T.
  pose proof (defaultBranchStep_Step conn st) as HB. fold d B in HB.
  pose proof (descriptionStep_Step_after conn d _ (Step_data _ _ _ _ HB)) as HD. fold D in HD.
  assert (Hd2 : data (snd (D (snd (B st)))) = d)
    by (rewrite (Step_data _ _ _ _ HD); apply (Step_data _ _ _ _ HB)).
  pose proof (tagsStep_Step_after conn setTagsCodeCommit d _ Hd2) as HT. fold T in HT.
  pose proof (Read_Handled conn tagsToMapCodeCommit (snd (T (snd (D (snd (B st))))))) as HR.
  assert (ETR : Extends (andThen T Read) (snd (D (snd (B st))))).
  { eapply Handled_Extends, (Handled_andThen isUpdateOrReadCall (Id d)).
    - eapply Step_weaken; [|exact HT]. unfold isUpdateOrReadCall, isUpdateCall.
      intros c ->. by rewrite !orb_true_r.
    - destruct HR as (tr & ? & ? & Ho). exists tr. handled_parts; [done| |].
      + apply (ofKind_weaken isReadCall); [|done]. unfold isUpdateOrReadCall.
        intros c ->. apply orb_true_r.
      + by rewrite (Step_data _ _ _ _ HT), Hd2 in Ho. }
  assert (EDTR : Extends (andThen D (andThen T Read)) (snd (B st))).
  { destruct (Step_Extends _ _ _ _ HD) as [tr1 H1]. destruct ETR as [tr2 H2].
    unfold Extends. rewrite snd_andThen. destruct (fst (D (snd (B st)))).
    - by exists tr1.
    - exists (tr1 ++ tr2)%list. by rewrite H2, H1, app_assoc. }
  transitivity (newCalls (andThen B (andThen D (andThen T Read))) st).
  { unfold newCalls. by rewrite Update_parts. }
  rewrite newCalls_andThen by eauto using Step_Extends.
  f_equal. destruct (fst (B st)); [done|]. cbv zeta.
  rewrite newCalls_andThen by eauto using Step_Extends.
  f_equal. destruct (fst (D (snd (B st)))); [done|].
  rewrite newCalls_andThen by eauto using Step_Extends, Handled_Extends.
  done.
Qed.

Lemma defaultBranchStep_calls (st : St W) :
  newCalls (defaultBranchStep conn (data st)) st =
    if snd (GetOk "default_branch" (data st)) && HasChange "default_branch" (data st)
    then newCalls (resourceAwsCodeCommitUpdateDefaultBranch conn) st
    else [].
Proof.
  unfold defaultBranchStep.
  destruct (snd _); simpl; [|apply newCalls_ret].
  destruct (HasChange _ _); [done | apply newCalls_ret].
Qed.

Lemma descriptionStep_calls (d : ResourceData) (s : St W) :
  newCalls (descriptionStep conn d) s =
    if HasChange "description" d
    then newCalls (resourceAwsCodeCommitUpdateDescription conn) s
    else [].
Proof. unfold descriptionStep. destruct (HasChange _ _); [done | apply newCalls_ret]. Qed.

(** The log of Update is the log of its three steps, followed by the log
    of Read when the steps returned no error. *)
Lemma Update_calls_steps (st : St W) :
  newCalls Update st =
    (newCalls (Steps (data st)) st ++
     match fst (Steps (data st) st) with
     | Some _ => []
     | None => newCalls Read (snd (Steps (data st) st))
     end)%list.
Proof.
  transitivity (newCalls (andThen (Steps (data st)) Read) st).
  { unfold newCalls. by rewrite Update_steps. }
  apply newCalls_andThen.
  - apply (Step_Extends _ _ _ _ (updateSteps_Step conn setTagsCodeCommit st)).
  - apply (Handled_Extends _ _ _ _ (Read_Handled conn tagsToMapCodeCommit _)).
Qed.

(** A failed call of one of the three steps of Update means that the steps
    returned an error. *)
Lemma Update_failed_step (st : St W) (c : Call) (e : error) :
  (c, Some e) ∈ newCalls Update st -> isUpdateCall c = true ->
  exists err, fst (Steps (data st) st) = Some err.
Proof.
  intros Hin Hc. rewrite Update_calls_steps in Hin.
  pose proof (Step_newCalls _ _ _ _ (updateSteps_Step conn setTagsCodeCommit st))
    as (_ & _ & Hok).
  destruct (fst (Steps (data st) st)) as [err|]; [eauto|]. exfalso.
  apply elem_of_app in Hin as [Hin|Hin].
  - specialize (Hok eq_refl). rewrite Forall_forall in Hok. by specialize (Hok _ Hin).
  - pose proof (Handled_newCalls _ _ _ _
                  (Read_Handled conn tagsToMapCodeCommit (snd (Steps (data st) st))))
      as [Hk _].
    pose proof (ofKind_disjoint isReadCall isUpdateCall _ _ _ ltac:(by intros []) Hk Hin).
    congruence.
Qed.

(** When the three steps of Update return an error, Update returns it,
    leaves the resource data alone and makes no call of Read. *)
Lemma Update_steps_failed (st : St W) (err : error) :
  fst (Steps (data st) st) = Some err ->
  fst (Update st) = Some err /\ data (snd (Update st)) = data st /\
  ofKind isUpdateCall (newCalls Update st).
Proof.
  intros H. pose proof (updateSteps_Step conn setTagsCodeCommit st) as HS.
  rewrite Update_calls_steps, Update_steps, andThen_eq, H, app_nil_r. simpl.
  split; [done|]. split; [apply (Step_data _ _ _ _ HS) | apply (Step_newCalls _ _ _ _ HS)].
Qed.

(** X1: when a call of the default-branch, description or tags step of
    Update fails, Update leaves the resource data exactly as it was, makes
    no call of Read, and returns the error of that call behind its
    prefix. *)
Theorem update_failure_leaves_data (st : St W) (c : Call) (e : error) :
  (c, Some e) ∈ newCalls Update st -> isUpdateCall c = true ->
  data (snd (Update st)) = data st /\
  ofKind isUpdateCall (newCalls Update st) /\
  fst (Update st) = Some (Errorf (errorPrefix c (Id (data st))) (Error e)).
Proof.
  intros Hin Hc. destruct (Update_failed_step _ _ _ Hin Hc) as [err Herr].
  destruct (Update_steps_failed _ _ Herr) as (Hr & Hd & Hk).
  split; [done|]. split; [done|].
  apply list_elem_of_lookup in Hin as [i Hi].
  pose proof (Handled_newCalls _ _ _ _
                (Update_Handled conn tagsToMapCodeCommit setTagsCodeCommit st)) as [_ HO].
  refine (proj1 (Outcome_surfaced _ _ _ _ _ _ HO Hi _)). by destruct c.
Qed.

(** X2: when create-repository succeeded and a later call of the
    default-branch, description or tags step fails, Create returns that
    error but keeps what it has recorded: the resource Id is the
    configured repository name and repository_id, arn, clone_url_http and
    clone_url_ssh are those of the create-repository answer. *)
Theorem create_keeps_identity_when_update_fails
  (st : St W) (out : CreateRepositoryOutput.t) (w1 : W) (c : Call) (e : error) :
  CreateRepository conn (createInput tagsFromMapCodeCommit (data st)) (remote st)
    = (Ok out, w1) ->
  (c, Some e) ∈ newCalls Create st -> isUpdateCall c = true ->
  let md := CreateRepositoryOutput.RepositoryMetadata out in
  let d' := data (snd (Create st)) in
  (exists err, fst (Create st) = Some err) /\
  Id d' = asString (Get "repository_name" (data st)) /\
  attrs d' !! "repository_id" = Some (VString (RepositoryMetadata.RepositoryId md)) /\
  attrs d' !! "arn" = Some (VString (RepositoryMetadata.Arn md)) /\
  attrs d' !! "clone_url_http" = Some (VString (RepositoryMetadata.CloneUrlHttp md)) /\
  attrs d' !! "clone_url_ssh" = Some (VString (RepositoryMetadata.CloneUrlSsh md)) /\
  forall k, k ∉ ["repository_id"; "arn"; "clone_url_http"; "clone_url_ssh"] ->
            attrs d' !! k = attrs (data st) !! k.
Proof.
  intros H Hin Hc md d'. subst d'.
  set (st1 := mkSt (created md (data st)) w1
                (calls st ++ [(CallCreateRepository (createInput tagsFromMapCodeCommit (data st)),
                               None)])).
  assert (HC : Create st = Update st1) by apply (Create_created _ _ _ _ _ _ _ H).
  assert (Hcalls : newCalls Create st
                   = (CallCreateRepository (createInput tagsFromMapCodeCommit (data st)), None)
                       :: newCalls Update st1).
  { apply newCalls_app. rewrite HC.
    rewrite (Extends_newCalls _ _
               (Handled_Extends _ _ _ _
                  (Update_Handled conn tagsToMapCodeCommit setTagsCodeCommit st1))).
    simpl. by rewrite <- app_assoc. }
  rewrite Hcalls in Hin. apply elem_of_cons in Hin as [Heq|Hin]; [discriminate|].
  destruct (Update_failed_step _ _ _ Hin Hc) as [err Herr].
  destruct (Update_steps_failed _ _ Herr) as (Hr & Hd & _).
  rewrite HC, Hd. split; [eauto|]. unfold st1, created, withAttr. simpl.
  repeat split; try by simplify_map_eq.
  intros k Hk. rewrite !lookup_insert_ne; [done|..]; intros <-; apply Hk; set_solver.
Qed.

(** X3: Update calls list-branches or update-default-branch if and only
    if default_branch is set to a non-zero value and has changed. *)
Theorem branches_touched_only_for_a_changed_default_branch (st : St W) :
  (exists c o, (c, o) ∈ newCalls Update st /\ isBranchCall c = true) <->
  (snd (GetOk "default_branch" (data st)) = true /\
   HasChange "default_branch" (data st) = true).
Proof.
  destruct (Update_calls_after_branch conn tagsToMapCodeCommit setTagsCodeCommit st)
    as (rest & HU & Hrest).
  rewrite defaultBranchStep_calls in HU. split.
  - intros (c & o & Hin & Hc). rewrite HU in Hin.
    destruct (snd _), (HasChange "default_branch" _); simpl in *; try done;
      pose proof (ofKind_disjoint _ isBranchCall _ _ _
                    (fun c' H => proj1 (negb_true_iff _) H) Hrest Hin); congruence.
  - intros [Hset Hch]. rewrite Hset, Hch, UpdateDefaultBranch_calls in HU. simpl in HU.
    destruct (ListBranches conn _ (remote st)) as [r w1].
    eexists _, _. split; [rewrite HU; apply elem_of_cons; by left | reflexivity].
Qed.

(** X4: when the default-branch step returned no error, Update calls
    update-repository-description if and only if the description has
    changed; whenever it does, the request names the resource Id and
    carries the configured description. *)
Theorem description_updated_only_when_changed (st : St W) :
  fst (defaultBranchStep conn (data st) st) = None ->
  ((exists c o, (c, o) ∈ newCalls Update st /\ isDescriptionCall c = true) <->
   HasChange "description" (data st) = true) /\
  forall input o,
    (CallUpdateRepositoryDescription input, o) ∈ newCalls Update st ->
    input =
      {| UpdateRepositoryDescriptionInput.RepositoryName := Some (Id (data st));
         UpdateRepositoryDescriptionInput.RepositoryDescription :=
           Some (asString (Get "description" (data st))) |}.
Proof.
  intros HB.
  pose proof (Update_calls_exact st) as HU. cbv zeta in HU. rewrite HB in HU.
  pose proof (defaultBranchStep_Step conn st) as SB.
  pose proof (Step_data _ _ _ _ SB) as Hd1.
  pose proof (Step_newCalls _ _ _ _ SB) as [HkB _].
  set (s1 := snd (defaultBranchStep conn (data st) st)) in *.
  pose proof (descriptionStep_Step_after conn _ _ Hd1) as SD.
  set (s2 := snd (descriptionStep conn (data st) s1)) in *.
  assert (Hd2 : data s2 = data st) by (unfold s2; by rewrite (Step_data _ _ _ _ SD)).
  assert (Hrest : ofKind (fun c => negb (isDescriptionCall c))
            match fst (descriptionStep conn (data st) s1) with
            | Some _ => []
            | None =>
                (newCalls (tagsStep conn setTagsCodeCommit (data st)) s2 ++
                 match fst (tagsStep conn setTagsCodeCommit (data st) s2) with
                 | Some _ => []
                 | None => newCalls Read (snd (tagsStep conn setTagsCodeCommit (data st) s2))
                 end)%list
            end).
  { destruct (fst (descriptionStep _ _ _)); [constructor|]. apply ofKind_app.
    - apply (ofKind_weaken isSetTags); [by intros []|].
      apply (Step_newCalls _ _ _ _ (tagsStep_Step_after conn setTagsCodeCommit _ _ Hd2)).
    - destruct (fst (tagsStep _ _ _ _)); [constructor|].
      apply (ofKind_weaken isReadCall); [by intros []|].
      apply (Handled_newCalls _ _ _ _ (Read_Handled conn tagsToMapCodeCommit _)). }
  assert (HinD : forall c o, (c, o) ∈ newCalls Update st -> isDescriptionCall c = true ->
                             (c, o) ∈ newCalls (descriptionStep conn (data st)) s1).
  { intros c o Hin Hc. rewrite HU in Hin.
    apply elem_of_app in Hin as [Hin|Hin].
    - pose proof (ofKind_disjoint isBranchCall isDescriptionCall _ _ _
                    ltac:(by intros []) HkB Hin). congruence.
    - apply elem_of_app in Hin as [Hin|Hin]; [done|].
      pose proof (ofKind_disjoint _ isDescriptionCall _ _ _
                    (fun c' H => proj1 (negb_true_iff _) H) Hrest Hin). congruence. }
  rewrite descriptionStep_calls, UpdateDescription_calls, Hd1 in HinD. cbv zeta in HinD.
  split; [split|].
  - intros (c & o & Hin & Hc). specialize (HinD _ _ Hin Hc).
    destruct (HasChange "description" _); [done|]. by apply elem_of_nil in HinD.
  - intros Hch. eexists _, _. split.
    + rewrite HU, descriptionStep_calls, UpdateDescription_calls, Hch. cbv zeta.
      apply elem_of_app. right. apply elem_of_app. left. apply elem_of_cons. by left.
    + reflexivity.
  - intros input o Hin. specialize (HinD _ _ Hin eq_refl).
    destruct (HasChange "description" _); [|by apply elem_of_nil in HinD].
    apply list_elem_of_singleton in HinD. by injection HinD as -> _.
Qed.

(** X5: every error a handler returns is the error of the last remote call
    it made, behind the prefix of that call, and all the calls before it
    succeeded; no handler returns an error of its own making (the error
    for a failed write of the tags attribute never occurs). *)
Theorem errors_come_from_failed_calls (st : St W) (err : error) :
  let caused (id : string) (tr : list Event) :=
    exists pre c e,
      tr = (pre ++ [(c, Some e)])%list /\ Forall succeeded pre /\
      err = Errorf (errorPrefix c id) (Error e) in
  (fst (Create st) = Some err ->
   caused (asString (Get "repository_name" (data st))) (newCalls Create st)) /\
  (fst (Update st) = Some err -> caused (Id (data st)) (newCalls Update st)) /\
  (fst (Read st) = Some err -> caused (Id (data st)) (newCalls Read st)) /\
  (fst (Delete st) = Some err -> caused (Id (data st)) (newCalls Delete st)).
Proof.
  intros caused. subst caused. cbv beta.
  pose proof (Handled_newCalls _ _ _ _
                (Create_Handled conn tagsFromMapCodeCommit tagsToMapCodeCommit
                   setTagsCodeCommit st)) as [_ HC].
  pose proof (Handled_newCalls _ _ _ _
                (Update_Handled conn tagsToMapCodeCommit setTagsCodeCommit st)) as [_ HU].
  pose proof (Handled_newCalls _ _ _ _ (Read_Handled conn tagsToMapCodeCommit st)) as [_ HR].
  pose proof (Handled_newCalls _ _ _ _ (Delete_Handled conn st)) as [_ HD].
  assert (Hgen : forall id r tr, Outcome id r tr -> r = Some err ->
            exists pre c e, tr = (pre ++ [(c, Some e)])%list /\ Forall succeeded pre /\
                            err = Errorf (errorPrefix c id) (Error e)).
  { intros id r tr Ho ->. apply Outcome_error_last in Ho as (pre & c & e & ? & ? & _ & ?).
    eauto 10. }
  repeat split; intros Hr; eapply Hgen; eauto.
Qed.

(** *** No call is repeated *)

(** A sublist goal between two explicit lists. *)
Ltac sublist_explicit :=
  simpl; repeat first [apply sublist_nil | apply sublist_skip | apply sublist_cons].

Lemma operations_app (tr1 tr2 : list Event) :
  operations (tr1 ++ tr2) = (operations tr1 ++ operations tr2)%list.
Proof. apply map_app. Qed.

Lemma Read_operations (s : St W) :
  operations (newCalls Read s) = [OpGetRepository] \/
  operations (newCalls Read s) = [OpGetRepository; OpListTagsForResource].
Proof.
  rewrite Read_calls.
  destruct (GetRepository conn _ (remote s)) as [[out|err] w1]; simpl; auto.
Qed.

Lemma defaultBranchStep_operations (st : St W) :
  operations (newCalls (defaultBranchStep conn (data st)) st)
    `sublist_of` [OpListBranches; OpUpdateDefaultBranch].
Proof.
  rewrite defaultBranchStep_calls. destruct (_ && _); [|apply sublist_nil_l].
  rewrite UpdateDefaultBranch_calls. cbv zeta.
  destruct (ListBranches conn _ (remote st)) as [[out|err] w1]; simpl;
    [destruct (ListBranchesOutput.Branches out); simpl|];
    sublist_explicit.
Qed.

Lemma descriptionStep_operations (d : ResourceData) (s : St W) :
  operations (newCalls (descriptionStep conn d) s)
    `sublist_of` [OpUpdateRepositoryDescription].
Proof.
  rewrite descriptionStep_calls. destruct (HasChange _ _); [|apply sublist_nil_l].
  rewrite UpdateDescription_calls. sublist_explicit.
Qed.

Lemma tagsStep_operations (d : ResourceData) (s : St W) :
  operations (newCalls (tagsStep conn setTagsCodeCommit d) s) `sublist_of` [OpSetTags].
Proof.
  rewrite (tagsStep_calls conn setTagsCodeCommit).
  destruct (IsNewResource d); [apply sublist_nil_l | sublist_explicit].
Qed.

Lemma Read_operations_sublist (s : St W) :
  operations (newCalls Read s) `sublist_of` [OpGetRepository; OpListTagsForResource].
Proof.
  destruct (Read_operations s) as [-> | ->]; sublist_explicit.
Qed.

Lemma Update_operations (st : St W) :
  operations (newCalls Update st) `sublist_of` updateOperations.
Proof.
  rewrite Update_calls_exact. cbv zeta. rewrite operations_app.
  change updateOperations with
    ([OpListBranches; OpUpdateDefaultBranch]
       ++ [OpUpdateRepositoryDescription; OpSetTags; OpGetRepository;
           OpListTagsForResource])%list.
  apply sublist_app; [apply defaultBranchStep_operations|].
  destruct (fst (defaultBranchStep conn (data st) st)); [apply sublist_nil_l|].
  rewrite operations_app.
  change [OpUpdateRepositoryDescription; OpSetTags; OpGetRepository; OpListTagsForResource]
    with ([OpUpdateRepositoryDescription]
            ++ [OpSetTags; OpGetRepository; OpListTagsForResource])%list.
  apply sublist_app; [apply descriptionStep_operations|].
  destruct (fst (descriptionStep conn (data st) _)); [apply sublist_nil_l|].
  rewrite operations_app.
  change [OpSetTags; OpGetRepository; OpListTagsForResource]
    with ([OpSetTags] ++ [OpGetRepository; OpListTagsForResource])%list.
  apply sublist_app; [apply tagsStep_operations|].
  destruct (fst (tagsStep conn setTagsCodeCommit (data st) _)); [apply sublist_nil_l|].
  apply Read_operations_sublist.
Qed.

(** The log of a Create whose create-repository call succeeded. *)
Lemma Create_calls_created
  (st : St W) (out : CreateRepositoryOutput.t) (w1 : W) :
  CreateRepository conn (createInput tagsFromMapCodeCommit (data st)) (remote st)
    = (Ok out, w1) ->
  newCalls Create st =
    (CallCreateRepository (createInput tagsFromMapCodeCommit (data st)), None)
      :: newCalls Update
           (mkSt (created (CreateRepositoryOutput.RepositoryMetadata out) (data st)) w1
                 (calls st ++ [(CallCreateRepository
                                  (createInput tagsFromMapCodeCommit (data st)), None)])).
Proof.
  intros H. apply newCalls_app. rewrite (Create_created _ _ _ _ _ _ _ H).
  rewrite (Extends_newCalls _ _
             (Handled_Extends _ _ _ _
                (Update_Handled conn tagsToMapCodeCommit setTagsCodeCommit _))).
  simpl. by rewrite <- app_assoc.
Qed.

(** X6: no handler repeats a call, and the calls come in the order of the
    source (the tag helper, which is declared outside the file, counts as
    one call).  Read calls get-repository, alone or followed by the
    listing of the tags; Delete makes the one delete-repository call; the
    operations Update calls are, in this order and each at most once,
    among list-branches, update-default-branch,
    update-repository-description, the tag helper, get-repository and the
    listing of the tags; Create calls create-repository first and then
    what Update calls. *)
Theorem calls_are_made_once_and_in_order (st : St W) :
  (operations (newCalls Read st) = [OpGetRepository] \/
   operations (newCalls Read st) = [OpGetRepository; OpListTagsForResource]) /\
  operations (newCalls Delete st) = [OpDeleteRepository] /\
  operations (newCalls Update st) `sublist_of` updateOperations /\
  NoDup (operations (newCalls Update st)) /\
  (exists rest,
     operations (newCalls Create st) = OpCreateRepository :: rest /\
     rest `sublist_of` updateOperations) /\
  NoDup (operations (newCalls Create st)).
Proof.
  assert (Hnd : NoDup updateOperations) by (by apply (bool_decide_unpack _)).
  assert (HC : exists rest,
             operations (newCalls Create st) = OpCreateRepository :: rest /\
             rest `sublist_of` updateOperations).
  { destruct (CreateRepository conn (createInput tagsFromMapCodeCommit (data st))
                (remote st)) as [[out|err] w1] eqn:H.
    - rewrite (Create_calls_created _ _ _ H). simpl. eexists. split; [reflexivity|].
      apply Update_operations.
    - exists []. split; [|apply sublist_nil_l].
      by rewrite (newCalls_app _ _ _
                    (f_equal (fun r => calls (snd r)) (Create_failed _ _ _ _ _ _ _ H))). }
  split; [apply Read_operations|]. split.
  { pose proof (Delete_eq conn st) as E.
    destruct (DeleteRepository conn _ (remote st)) as [r w1].
    by rewrite (newCalls_app _ _ [(CallDeleteRepository (deleteInput (data st)), errorOf r)])
      by (by rewrite E). }
  split; [apply Update_operations|].
  split; [apply (sublist_NoDup _ _ Hnd (Update_operations st))|].
  split; [exact HC|].
  destruct HC as (rest & -> & Hrest). apply NoDup_cons. split.
  - intros Hin. apply (sublist_subseteq _ _ Hrest) in Hin. revert Hin.
    by apply (bool_decide_unpack _).
  - apply (sublist_NoDup _ _ Hnd Hrest).
Qed.

(** X7: an Update with nothing to change (default_branch not set or not
    changed, description not changed) is the tag helper followed by Read,
    and on a new resource it is Read alone. *)
Theorem update_without_changes_is_read (st : St W) :
  snd (GetOk "default_branch" (data st)) = false \/
  HasChange "default_branch" (data st) = false ->
  HasChange "description" (data st) = false ->
  Update st = andThen (tagsStep conn setTagsCodeCommit (data st)) Read st /\
  (IsNewResource (data st) = true -> Update st = Read st).
Proof.
  intros Hb Hd.
  assert (E : Update st = andThen (tagsStep conn setTagsCodeCommit (data st)) Read st).
  { rewrite Update_parts. cbv zeta. unfold defaultBranchStep, descriptionStep.
    rewrite Hd. destruct Hb as [-> | ->]; [done|]. by destruct (snd _). }
  split; [exact E|]. intros Hnew. rewrite E. unfold tagsStep. by rewrite Hnew.
Qed.

(** *** Read *)

(** X8: when get-repository fails, Read makes no other call (the tags are
    not listed) and changes nothing in the resource data, except that it
    clears the Id in the not-found case. *)
Theorem read_failure_changes_only_the_id (st : St W) (err : error) (w1 : W) :
  GetRepository conn (readInput (data st)) (remote st) = (Err err, w1) ->
  let d' := data (snd (Read st)) in
  newCalls Read st = [(CallGetRepository (readInput (data st)), Some err)] /\
  attrs d' = attrs (data st) /\ changed d' = changed (data st) /\
  isNew d' = isNew (data st) /\
  Id d' = if isAWSErr err ErrCodeRepositoryDoesNotExistException "" then ""
          else Id (data st).
Proof.
  intros H d'. subst d'. split.
  - rewrite Read_calls, H. reflexivity.
  - rewrite (Read_failed _ _ _ _ _ H). simpl. by destruct (isAWSErr _ _ _).
Qed.

(** X9: when get-repository succeeds, Read lists the tags of the ARN in
    the metadata it was given (not of the arn attribute it held before).
    If the listing succeeds Read returns nil with the tags attribute set
    to the converted tags; if it fails Read returns the error behind the
    prefix naming the resource and the tags attribute is left as it was. *)
Theorem read_lists_tags_by_arn
  (st : St W) (out : GetRepositoryOutput.t) (w1 : W)
  (rt : result ListTagsForResourceOutput.t) (w2 : W) :
  let md := GetRepositoryOutput.RepositoryMetadata out in
  let input := {| ListTagsForResourceInput.ResourceArn := RepositoryMetadata.Arn md |} in
  GetRepository conn (readInput (data st)) (remote st) = (Ok out, w1) ->
  ListTagsForResource conn input w1 = (rt, w2) ->
  let d' := data (snd (Read st)) in
  newCalls Read st =
    [(CallGetRepository (readInput (data st)), None);
     (CallListTagsForResource input, errorOf rt)] /\
  remote (snd (Read st)) = w2 /\
  match rt with
  | Ok tagList =>
      fst (Read st) = None /\
      attrs d' !! "tags"
        = Some (VMap (tagsToMapCodeCommit (ListTagsForResourceOutput.Tags tagList)))
  | Err e =>
      fst (Read st) =
        Some (Errorf ("error listing CodeCommit Repository tags for " ++ Id (data st) ++ ": ")
                     (Error e)) /\
      attrs d' !! "tags" = attrs (data st) !! "tags"
  end.
Proof.
  intros md input H HL d'. subst d'. unfold input, md in *. split.
  - rewrite Read_calls, H. cbv zeta. by rewrite HL.
  - rewrite (Read_got _ _ _ _ _ H). cbv zeta. rewrite HL.
    destruct rt as [tl|e]; simpl.
    + split; [done|]. split; [done|]. apply lookup_insert_eq.
    + split; [done|]. split; [done|].
      rewrite attrs_branched_ne by done. unfold copied, withAttr. simpl.
      by simplify_map_eq.
Qed.

(** X10: when get-repository succeeds on data whose default_branch is set
    and the metadata names a default branch, Read records that branch in
    the default_branch attribute. *)
Theorem read_records_the_remote_default_branch
  (st : St W) (out : GetRepositoryOutput.t) (w1 : W) (b : string) :
  GetRepository conn (readInput (data st)) (remote st) = (Ok out, w1) ->
  snd (GetOk "default_branch" (data st)) = true ->
  RepositoryMetadata.DefaultBranch (GetRepositoryOutput.RepositoryMetadata out) = Some b ->
  attrs (data (snd (Read st))) !! "default_branch" = Some (VString (Some b)).
Proof.
  intros H Hset Hb. rewrite (Read_got_data _ _ _ _ _ H) by done.
  unfold branched. rewrite GetOk_default_branch_copied, Hset, Hb.
  apply attrs_withAttr_eq.
Qed.

(** Equality of resource data, attribute by attribute. *)
Lemma ResourceData_eq (a b : ResourceData) :
  Id a = Id b -> (forall k, attrs a !! k = attrs b !! k) ->
  changed a = changed b -> isNew a = isNew b -> a = b.
Proof.
  destruct a, b. simpl. intros -> H -> ->. f_equal. by apply map_eq.
Qed.

Lemma GetOk_default_branch_set (b : string) (d : ResourceData) :
  snd (GetOk "default_branch" (withAttr "default_branch" (VString (Some b)) d))
  = negb (String.eqb b "").
Proof. unfold GetOk. by rewrite attrs_withAttr_eq. Qed.

Lemma attrs_copied_other md d k :
  k ≠ "repository_id" -> k ≠ "arn" -> k ≠ "clone_url_http" -> k ≠ "clone_url_ssh" ->
  k ≠ "description" -> k ≠ "repository_name" ->
  attrs (copied md d) !! k = attrs d !! k.
Proof. intros. unfold copied. by rewrite !attrs_withAttr_ne. Qed.

(** Lookups through the writes of Read. *)
Ltac look :=
  repeat first
    [ rewrite attrs_withAttr_eq
    | rewrite attrs_withAttr_ne by done
    | rewrite attrs_copied_other by done ].

(** A lookup goal, by cases on the attribute keys Read writes. *)
Ltac by_key k :=
  destruct (decide (k = "repository_id")) as [->|];
  [|destruct (decide (k = "arn")) as [->|];
  [|destruct (decide (k = "clone_url_http")) as [->|];
  [|destruct (decide (k = "clone_url_ssh")) as [->|];
  [|destruct (decide (k = "description")) as [->|];
  [|destruct (decide (k = "repository_name")) as [->|];
  [|destruct (decide (k = "default_branch")) as [->|];
  [|destruct (decide (k = "tags")) as [->|]]]]]]]];
  [unfold copied; look; reflexivity ..|look; reflexivity].

(** Copying the metadata and looking at the default branch a second time
    changes nothing, with or without the tags written in between. *)
Lemma read_data_idempotent (md : RepositoryMetadata.t) (d : ResourceData) :
  let d1 := branched md (copied md d) in
  branched md (copied md d1) = d1 /\
  forall v, withAttr "tags" v (branched md (copied md (withAttr "tags" v d1)))
            = withAttr "tags" v d1.
Proof.
  intros d1. subst d1. unfold branched.
  rewrite !GetOk_default_branch_copied.
  assert (Ht : forall v x, GetOk "default_branch" (withAttr "tags" v x)
                           = GetOk "default_branch" x)
    by (intros; by apply GetOk_withAttr_ne).
  assert (Hfinish : forall a b : ResourceData,
            Id a = Id b -> changed a = changed b -> isNew a = isNew b ->
            (forall k, attrs a !! k = attrs b !! k) -> a = b)
    by (intros; by apply ResourceData_eq).
  destruct (snd (GetOk "default_branch" d)) eqn:Hset;
    [destruct (RepositoryMetadata.DefaultBranch md) as [b|]|];
    (split; [|intros v]);
    repeat first [ rewrite Ht | rewrite GetOk_default_branch_copied
                 | rewrite GetOk_default_branch_set | rewrite Hset ];
    try destruct (negb _);
    (apply Hfinish; [done|done|done|]); intros k; by_key k.
Qed.

(** X11: Read is idempotent on the resource data.  A second Read that is
    given the same answers by get-repository and by the listing of the
    tags leaves the data as the first Read left it and returns the same
    result. *)
Theorem read_twice_is_read_once
  (st : St W) (out : GetRepositoryOutput.t)
  (rt : result ListTagsForResourceOutput.t) (w1 w2 w3 w4 : W) :
  let md := GetRepositoryOutput.RepositoryMetadata out in
  let input := {| ListTagsForResourceInput.ResourceArn := RepositoryMetadata.Arn md |} in
  GetRepository conn (readInput (data st)) (remote st) = (Ok out, w1) ->
  ListTagsForResource conn input w1 = (rt, w2) ->
  GetRepository conn (readInput (data st)) w2 = (Ok out, w3) ->
  ListTagsForResource conn input w3 = (rt, w4) ->
  let st' := snd (Read st) in
  data (snd (Read st')) = data st' /\ fst (Read st') = fst (Read st).
Proof.
  intros md input H1 H2 H3 H4 st'. unfold input in *.
  pose proof (Read_got conn tagsToMapCodeCommit _ _ _ H1) as E1.
  cbv zeta in E1. fold md in E1. rewrite H2 in E1.
  destruct (read_data_idempotent md (data st)) as [Hi Hit]. cbv zeta in Hi.
  assert (Hid : readInput (data st') = readInput (data st)).
  { unfold st', readInput. rewrite E1. destruct rt; simpl; by rewrite ?Id_branched. }
  assert (Hrem : remote st' = w2) by (unfold st'; rewrite E1; by destruct rt).
  assert (H3' : GetRepository conn (readInput (data st')) (remote st') = (Ok out, w3))
    by (by rewrite Hid, Hrem).
  pose proof (Read_got conn tagsToMapCodeCommit _ _ _ H3') as E2.
  cbv zeta in E2. fold md in E2. rewrite H4 in E2.
  assert (Hid' : Id (data st') = Id (data st)) by (by injection Hid).
  rewrite E2. unfold st'. rewrite E1. destruct rt as [tl|e]; simpl.
  - split; [|done]. apply Hit.
  - split; [exact Hi|]. unfold st' in Hid'. rewrite E1 in Hid'. simpl in Hid'.
    by rewrite Hid'.
Qed.

(** *** Create and Delete *)

(** X12: a Create whose create-repository call and Update steps succeed,
    but whose final Read is told that the repository does not exist,
    returns nil with the resource Id cleared; the computed attributes of
    the create-repository answer stay in the data. *)
Theorem create_of_a_vanished_repository
  (st : St W) (out : CreateRepositoryOutput.t) (w1 : W) (err : error) (w3 : W) :
  CreateRepository conn (createInput tagsFromMapCodeCommit (data st)) (remote st)
    = (Ok out, w1) ->
  let md := CreateRepositoryOutput.RepositoryMetadata out in
  let st1 :=
    mkSt (created md (data st)) w1
         (calls st ++ [(CallCreateRepository (createInput tagsFromMapCodeCommit (data st)), None)])
  in
  let st2 := snd (Steps (data st1) st1) in
  fst (Steps (data st1) st1) = None ->
  GetRepository conn (readInput (data st1)) (remote st2) = (Err err, w3) ->
  isAWSErr err ErrCodeRepositoryDoesNotExistException "" = true ->
  fst (Create st) = None /\
  Id (data (snd (Create st))) = "" /\
  attrs (data (snd (Create st))) = attrs (created md (data st)).
Proof.
  intros H md st1 st2 Hsteps HG Hnf.
  pose proof (Step_data _ _ _ _ (updateSteps_Step conn setTagsCodeCommit st1)) as Hd.
  fold st2 in Hd.
  assert (HG' : GetRepository conn (readInput (data st2)) (remote st2) = (Err err, w3))
    by (by rewrite Hd).
  rewrite (Create_created _ _ _ _ _ _ _ H). fold md st1.
  rewrite Update_steps, andThen_eq, Hsteps. fold st2.
  rewrite (Read_failed _ _ _ _ _ HG'), Hnf. simpl. by rewrite Hd.
Qed.

(** X13: Delete reports every failure of delete-repository, the not-found
    answer included, and keeps the resource data (and so the Id) as it
    was; for the same not-found error Read returns nil and clears the
    Id. *)
Theorem delete_reports_not_found_where_read_does_not
  (st : St W) (err : error) (w1 w2 : W) :
  DeleteRepository conn (deleteInput (data st)) (remote st) = (Err err, w1) ->
  GetRepository conn (readInput (data st)) (remote st) = (Err err, w2) ->
  isAWSErr err ErrCodeRepositoryDoesNotExistException "" = true ->
  (fst (Delete st) = Some (Errorf "Error deleting CodeCommit Repository: " (Error err)) /\
   data (snd (Delete st)) = data st) /\
  (fst (Read st) = None /\ Id (data (snd (Read st))) = "").
Proof.
  intros HD HG Hnf. split.
  - rewrite Delete_eq, HD. done.
  - rewrite (Read_failed _ _ _ _ _ HG), Hnf. done.
Qed.

End Further.

(** X14: in the schema every attribute is exactly one of required,
    optional and computed; repository_name is the only required attribute
    and the only one whose change forces a new resource, and its
    validation accepts a string if and only if its length is at most
    100. *)
Theorem schema_attribute_kinds :
  (forall k s,
     resourceSchema !! k = Some s ->
     ((Required s = true /\ Optional s = false /\ Computed s = false) \/
      (Required s = false /\ Optional s = true /\ Computed s = false) \/
      (Required s = false /\ Optional s = false /\ Computed s = true)) /\
     (Required s = true <-> k = "repository_name") /\
     (ForceNew s = true <-> k = "repository_name")) /\
  (exists f,
     ValidateFunc <$> resourceSchema !! "repository_name" = Some (Some f) /\
     forall v, accepts f (VString (Some v)) "repository_name" = true <->
               (String.length v <= 100)%nat).
Proof.
  split.
  - intros k s Hs. apply resourceSchema_lookup in Hs.
    unfold resourceSchemaEntries in Hs.
    repeat (apply elem_of_cons in Hs as [Hs|Hs];
            [apply pair_equal_spec in Hs as [-> ->]; simpl;
             split; [tauto | split; split; (done || discriminate)]|]).
    by apply elem_of_nil in Hs.
  - exists (StringLenBetween 0 100). split; [reflexivity|].
    intros v. rewrite StringLenBetween_accepts. lia.
Qed.

(* ===================================================================== *)
(** ** Further concrete runs *)
(* ===================================================================== *)

(** The log of a Create of the demo repository whose description call is
    throttled. *)
Lemma frozen_create_calls :
  newCalls (Demo.Create Demo.frozen) (Demo.start Demo.planned) =
    [ (CallCreateRepository
         {| CreateRepositoryInput.RepositoryName := Some "demo";
            CreateRepositoryInput.RepositoryDescription := Some "a demonstration";
            CreateRepositoryInput.Tags := Demo.tagsFromMap {[ "team" := "tools" ]} |}, None);
      (CallListBranches {| ListBranchesInput.RepositoryName := Some "demo" |}, None);
      (CallUpdateDefaultBranch
         {| UpdateDefaultBranchInput.RepositoryName := Some "demo";
            UpdateDefaultBranchInput.DefaultBranchName := Some "main" |}, None);
      (CallUpdateRepositoryDescription
         {| UpdateRepositoryDescriptionInput.RepositoryName := Some "demo";
            UpdateRepositoryDescriptionInput.RepositoryDescription := Some "a demonstration" |},
       Some Demo.throttled) ].
Proof. vm_compute. reflexivity. Qed.

Lemma update_failure_leaves_data_witness :
  data (snd (Demo.Update Demo.frozen (Demo.start Demo.existing))) = Demo.existing.
Proof.
  apply (update_failure_leaves_data (Demo.service Demo.frozen) Demo.tagsToMap Demo.setTags
           (Demo.start Demo.existing)
           (CallUpdateRepositoryDescription
              {| UpdateRepositoryDescriptionInput.RepositoryName := Some "demo";
                 UpdateRepositoryDescriptionInput.RepositoryDescription :=
                   Some "a demonstration" |})
           Demo.throttled).
  - change (resourceAwsCodeCommitRepositoryUpdate _ _ _) with (Demo.Update Demo.frozen).
    rewrite frozen_update_calls. do 2 (apply elem_of_cons; right). apply elem_of_cons. by left.
  - reflexivity.
Defined.

Lemma create_keeps_identity_when_update_fails_witness :
  let d' := data (snd (Demo.Create Demo.frozen (Demo.start Demo.planned))) in
  Id d' = "demo" /\
  attrs d' !! "arn" = Some (VString (Some "arn:aws:codecommit:us-east-1:111122223333:demo")).
Proof.
  destruct (create_keeps_identity_when_update_fails (Demo.service Demo.frozen)
              Demo.tagsFromMap Demo.tagsToMap Demo.setTags (Demo.start Demo.planned) _ tt
              (CallUpdateRepositoryDescription
                 {| UpdateRepositoryDescriptionInput.RepositoryName := Some "demo";
                    UpdateRepositoryDescriptionInput.RepositoryDescription :=
                      Some "a demonstration" |})
              Demo.throttled eq_refl) as (_ & Hid & _ & Harn & _).
  - change (resourceAwsCodeCommitRepositoryCreate _ _ _ _) with (Demo.Create Demo.frozen).
    rewrite frozen_create_calls. do 3 (apply elem_of_cons; right). apply elem_of_cons. by left.
  - reflexivity.
  - split; [exact Hid | exact Harn].
Defined.

Lemma description_updated_only_when_changed_witness :
  exists c o,
    (c, o) ∈ newCalls (Demo.Update Demo.healthy) (Demo.start Demo.existing) /\
    isDescriptionCall c = true.
Proof.
  apply (description_updated_only_when_changed (Demo.service Demo.healthy) Demo.tagsToMap
           Demo.setTags (Demo.start Demo.existing)).
  - vm_compute. reflexivity.
  - reflexivity.
Defined.

Lemma errors_come_from_failed_calls_witness :
  exists pre c e,
    newCalls (Demo.Read Demo.untaggable) (Demo.start Demo.existing)
      = (pre ++ [(c, Some e)])%list /\
    Forall succeeded pre /\
    PlainErr ("error listing CodeCommit Repository tags for demo: "
                ++ "ThrottlingException: Rate exceeded")
      = Errorf (errorPrefix c "demo") (Error e).
Proof.
  apply (errors_come_from_failed_calls (Demo.service Demo.untaggable) Demo.tagsFromMap
           Demo.tagsToMap Demo.setTags (Demo.start Demo.existing)).
  vm_compute. reflexivity.
Defined.

Lemma update_without_changes_is_read_witness :
  Demo.Update Demo.healthy (Demo.start Demo.bare)
  = Demo.Read Demo.healthy (Demo.start Demo.bare).
Proof.
  apply (update_without_changes_is_read (Demo.service Demo.healthy) Demo.tagsToMap
           Demo.setTags (Demo.start Demo.bare)).
  - left. reflexivity.
  - reflexivity.
  - reflexivity.
Defined.

Lemma read_failure_changes_only_the_id_witness :
  let d' := data (snd (Demo.Read Demo.missing (Demo.start Demo.existing))) in
  attrs d' = attrs Demo.existing /\ Id d' = "".
Proof.
  destruct (read_failure_changes_only_the_id (Demo.service Demo.missing) Demo.tagsToMap
              (Demo.start Demo.existing) Demo.notFound tt eq_refl)
    as (_ & Ha & _ & _ & Hi).
  split; [exact Ha | exact Hi].
Defined.

Lemma read_lists_tags_by_arn_witness :
  attrs (data (snd (Demo.Read Demo.healthy (Demo.start Demo.existing)))) !! "tags"
    = Some (VMap (Demo.tagsToMap {[ "team" := Some "tools" ]})) /\
  attrs (data (snd (Demo.Read Demo.untaggable (Demo.start Demo.existing)))) !! "tags"
    = attrs Demo.existing !! "tags".
Proof.
  split.
  - apply (read_lists_tags_by_arn (Demo.service Demo.healthy) Demo.tagsToMap
             (Demo.start Demo.existing) _ tt
             (Ok {| ListTagsForResourceOutput.Tags := {[ "team" := Some "tools" ]} |}) tt
             eq_refl eq_refl).
  - apply (read_lists_tags_by_arn (Demo.service Demo.untaggable) Demo.tagsToMap
             (Demo.start Demo.existing) _ tt (Err Demo.throttled) tt eq_refl eq_refl).
Defined.

Lemma read_records_the_remote_default_branch_witness :
  attrs (data (snd (Demo.Read Demo.healthy (Demo.start Demo.existing)))) !! "default_branch"
    = Some (VString (Some "main")).
Proof.
  exact (read_records_the_remote_default_branch (Demo.service Demo.healthy) Demo.tagsToMap
           (Demo.start Demo.existing) _ tt "main" eq_refl eq_refl eq_refl).
Defined.

Lemma read_twice_is_read_once_witness :
  let st' := snd (Demo.Read Demo.healthy (Demo.start Demo.existing)) in
  data (snd (Demo.Read Demo.healthy st')) = data st'.
Proof.
  apply (read_twice_is_read_once (Demo.service Demo.healthy) Demo.tagsToMap
           (Demo.start Demo.existing) _ _ tt tt tt tt eq_refl eq_refl eq_refl eq_refl).
Defined.

Lemma create_of_a_vanished_repository_witness :
  fst (Demo.Create Demo.missing (Demo.start Demo.planned)) = None /\
  Id (data (snd (Demo.Create Demo.missing (Demo.start Demo.planned)))) = "".
Proof.
  destruct (create_of_a_vanished_repository (Demo.service Demo.missing) Demo.tagsFromMap
              Demo.tagsToMap Demo.setTags (Demo.start Demo.planned) _ tt Demo.notFound tt
              eq_refl ltac:(vm_compute; reflexivity) eq_refl eq_refl) as (Hr & Hi & _).
  split; [exact Hr | exact Hi].
Defined.

Lemma delete_reports_not_found_where_read_does_not_witness :
  fst (Demo.Delete Demo.alreadyDeleted (Demo.start Demo.existing))
    = Some (PlainErr ("Error deleting CodeCommit Repository: "
                        ++ "RepositoryDoesNotExistException: demo does not exist")) /\
  Id (data (snd (Demo.Delete Demo.alreadyDeleted (Demo.start Demo.existing)))) = "demo".
Proof.
  destruct (delete_reports_not_found_where_read_does_not (Demo.service Demo.alreadyDeleted)
              Demo.tagsToMap (Demo.start Demo.existing) Demo.notFound tt tt
              eq_refl eq_refl eq_refl) as [[Hr Hd] _].
  split; [exact Hr | exact (f_equal Id Hd)].
Defined.

Lemma schema_attribute_kinds_witness :
  exists s, resourceSchema !! "repository_name" = Some s /\
            Required s = true /\ ForceNew s = true.
Proof.
  destruct schema_attribute_kinds as [H _].
  eexists. split; [reflexivity|].
  destruct (H "repository_name" _ eq_refl) as (_ & Hreq & Hforce).
  split; [by apply Hreq | by apply Hforce].
Defined.

(* ===================================================================== *)
(** ** The resource Id along the chain *)
(* ===================================================================== *)

Section Identity.

Context {W : Type}.
Variable conn : CodeCommit W.
Variable tagsFromMapCodeCommit : gmap string string -> gmap string (option string).
Variable tagsToMapCodeCommit : gmap string (option string) -> gmap string string.
Variable setTagsCodeCommit : CodeCommit W -> ResourceData -> W -> option error * W.

Local Abbreviation Read := (resourceAwsCodeCommitRepositoryRead conn tagsToMapCodeCommit).
Local Abbreviation Update :=
  (resourceAwsCodeCommitRepositoryUpdate conn tagsToMapCodeCommit setTagsCodeCommit).
Local Abbreviation Create :=
  (resourceAwsCodeCommitRepositoryCreate conn tagsFromMapCodeCommit tagsToMapCodeCommit
     setTagsCodeCommit).
Local Abbreviation Delete := (resourceAwsCodeCommitRepositoryDelete conn).
Local Abbreviation Steps := (updateSteps conn setTagsCodeCommit).

(** Read keeps the Id unless get-repository answered not-found. *)
Lemma Read_Id_kept (st : St W) :
  (forall c e, (c, Some e) ∈ newCalls Read st -> notFoundCase c e = false) ->
  Id (data (snd (Read st))) = Id (data st).
Proof.
  intros Hall. rewrite Read_calls in Hall.
  destruct (GetRepository conn (readInput (data st)) (remote st)) as [[out|err] w1] eqn:H.
  - rewrite (Read_got _ _ _ _ _ H). simpl.
    destruct (ListTagsForResource conn _ w1) as [[tl|e] w2]; simpl; by rewrite Id_branched.
  - specialize (Hall _ err ltac:(apply elem_of_cons; by left)). simpl in Hall.
    by rewrite (Read_failed _ _ _ _ _ H), Hall.
Qed.

(** Read clears the Id and returns nil when get-repository answered
    not-found. *)
Lemma Read_Id_cleared (st : St W) (c : Call) (e : error) :
  (c, Some e) ∈ newCalls Read st -> notFoundCase c e = true ->
  Id (data (snd (Read st))) = "" /\ fst (Read st) = None.
Proof.
  intros Hin Hnf. rewrite Read_calls in Hin.
  destruct (GetRepository conn (readInput (data st)) (remote st)) as [[out|err] w1] eqn:H.
  - exfalso. simpl in Hin.
    apply elem_of_cons in Hin as [Heq|Hin]; [discriminate|].
    apply list_elem_of_singleton in Hin. injection Hin as -> _. discriminate.
  - simpl in Hin. apply list_elem_of_singleton in Hin. injection Hin as -> ->.
    simpl in Hnf. by rewrite (Read_failed _ _ _ _ _ H), Hnf.
Qed.

Lemma Update_Id_kept (st : St W) :
  (forall c e, (c, Some e) ∈ newCalls Update st -> notFoundCase c e = false) ->
  Id (data (snd (Update st))) = Id (data st).
Proof.
  intros Hall. rewrite Update_calls_steps in Hall.
  pose proof (Step_data _ _ _ _ (updateSteps_Step conn setTagsCodeCommit st)) as Hd.
  destruct (fst (Steps (data st) st)) as [err|] eqn:Hs.
  - by destruct (Update_steps_failed conn tagsToMapCodeCommit setTagsCodeCommit _ _ Hs)
      as (_ & -> & _).
  - rewrite Update_steps, andThen_eq, Hs.
    transitivity (Id (data (snd (Steps (data st) st)))); [|by rewrite Hd].
    apply Read_Id_kept.
    intros c e Hin. apply Hall. apply elem_of_app. by right.
Qed.

Lemma Update_Id_cleared (st : St W) (c : Call) (e : error) :
  (c, Some e) ∈ newCalls Update st -> notFoundCase c e = true ->
  Id (data (snd (Update st))) = "" /\ fst (Update st) = None.
Proof.
  intros Hin Hnf. rewrite Update_calls_steps in Hin.
  pose proof (Step_newCalls _ _ _ _ (updateSteps_Step conn setTagsCodeCommit st))
    as (Hk & _ & _).
  apply elem_of_app in Hin as [Hin|Hin].
  - exfalso. unfold ofKind in Hk. rewrite Forall_forall in Hk.
    specialize (Hk _ Hin). simpl in Hk. destruct c; simpl in *; discriminate.
  - destruct (fst (Steps (data st) st)) as [err|] eqn:Hs; [by apply elem_of_nil in Hin|].
    rewrite Update_steps, andThen_eq, Hs. by apply (Read_Id_cleared _ c e).
Qed.

(** C5, as amended: the repository name is the identifier.  When
    create-repository succeeds, Create sets the resource Id to the
    configured repository_name before it goes on with Update.  When Create
    returns, the Id is that name, unless the get-repository call of the
    chained Read answered that the repository does not exist: then, and
    only then, the Id is the empty string, and Create returns nil.  Read
    and Delete address the repository by passing the resource Id as the
    repository name. *)
Theorem repository_name_is_the_identifier
  (st : St W) (out : CreateRepositoryOutput.t) (w1 : W) :
  CreateRepository conn (createInput tagsFromMapCodeCommit (data st)) (remote st)
    = (Ok out, w1) ->
  let name := asString (Get "repository_name" (data st)) in
  let d' := data (snd (Create st)) in
  (exists st1, Create st = Update st1 /\ Id (data st1) = name) /\
  ((forall c e, (c, Some e) ∈ newCalls Create st -> notFoundCase c e = false) ->
   Id d' = name) /\
  (forall c e, (c, Some e) ∈ newCalls Create st -> notFoundCase c e = true ->
               Id d' = "" /\ fst (Create st) = None) /\
  (forall s, exists o rest,
      newCalls Read s =
        (CallGetRepository {| GetRepositoryInput.RepositoryName := Some (Id (data s)) |}, o)
          :: rest) /\
  (forall s, exists o,
      newCalls Delete s =
        [(CallDeleteRepository {| DeleteRepositoryInput.RepositoryName := Some (Id (data s)) |},
          o)]).
Proof.
  intros H name d'. subst d'.
  pose proof (Create_calls_created conn tagsFromMapCodeCommit tagsToMapCodeCommit
                setTagsCodeCommit _ _ _ H) as Hcalls.
  pose proof (Create_created conn tagsFromMapCodeCommit tagsToMapCodeCommit
                setTagsCodeCommit _ _ _ H) as HC.
  split; [|split; [|split; [|split]]].
  - eexists. split; [exact HC | reflexivity].
  - intros Hall. rewrite HC, Update_Id_kept; [reflexivity|].
    intros c e Hin. apply Hall. rewrite Hcalls. apply elem_of_cons. by right.
  - intros c e Hin Hnf. rewrite Hcalls in Hin.
    apply elem_of_cons in Hin as [Heq|Hin]; [discriminate|].
    rewrite HC. by apply (Update_Id_cleared _ c e).
  - intros s. apply Read_first_call.
  - intros s. pose proof (Delete_eq conn s) as E.
    destruct (DeleteRepository conn _ (remote s)) as [r w2].
    exists (errorOf r). apply newCalls_app. by rewrite E.
Qed.

End Identity.

(** The log of the Create of the demo repository on a healthy service. *)
Lemma healthy_create_calls :
  newCalls (Demo.Create Demo.healthy) (Demo.start Demo.planned) =
    [ (CallCreateRepository
         {| CreateRepositoryInput.RepositoryName := Some "demo";
            CreateRepositoryInput.RepositoryDescription := Some "a demonstration";
            CreateRepositoryInput.Tags := Demo.tagsFromMap {[ "team" := "tools" ]} |}, None);
      (CallListBranches {| ListBranchesInput.RepositoryName := Some "demo" |}, None);
      (CallUpdateDefaultBranch
         {| UpdateDefaultBranchInput.RepositoryName := Some "demo";
            UpdateDefaultBranchInput.DefaultBranchName := Some "main" |}, None);
      (CallUpdateRepositoryDescription
         {| UpdateRepositoryDescriptionInput.RepositoryName := Some "demo";
            UpdateRepositoryDescriptionInput.RepositoryDescription := Some "a demonstration" |},
       None);
      (CallGetRepository {| GetRepositoryInput.RepositoryName := Some "demo" |}, None);
      (CallListTagsForResource
         {| ListTagsForResourceInput.ResourceArn :=
              Some "arn:aws:codecommit:us-east-1:111122223333:demo" |}, None) ].
Proof. vm_compute. reflexivity. Qed.

(** Create of the demo repository on a healthy service ends with the Id
    "demo". *)
Lemma repository_name_is_the_identifier_witness :
  Id (data (snd (Demo.Create Demo.healthy (Demo.start Demo.planned)))) = "demo".
Proof.
  destruct (repository_name_is_the_identifier (Demo.service Demo.healthy) Demo.tagsFromMap
              Demo.tagsToMap Demo.setTags (Demo.start Demo.planned)
              {| CreateRepositoryOutput.RepositoryMetadata := Demo.metadata |} tt eq_refl)
    as (_ & Hkept & _).
  apply Hkept. intros c e Hin.
  change (resourceAwsCodeCommitRepositoryCreate _ _ _ _) with (Demo.Create Demo.healthy) in Hin.
  rewrite healthy_create_calls in Hin.
  repeat (apply elem_of_cons in Hin as [Hin|Hin]; [discriminate Hin|]).
  apply elem_of_nil in Hin. destruct Hin.
Defined.

(** A Create that returns nil does not always leave the Id set to the
    configured repository name: when the chained Read is told that the
    repository does not exist, Create returns nil with the Id empty. *)
Lemma create_returns_nil_with_the_id_cleared :
  CreateRepository (Demo.service Demo.missing)
    (createInput Demo.tagsFromMap Demo.planned) tt
    = (Ok {| CreateRepositoryOutput.RepositoryMetadata := Demo.metadata |}, tt) /\
  fst (Demo.Create Demo.missing (Demo.start Demo.planned)) = None /\
  asString (Get "repository_name" Demo.planned) = "demo" /\
  Id (data (snd (Demo.Create Demo.missing (Demo.start Demo.planned)))) <> "demo".
Proof.
  split; [reflexivity|]. split; [vm_compute; reflexivity|]. split; [reflexivity|].
  vm_compute. discriminate.
Qed.
